(** * httpfieldmerge: HTTP field unification for IPFIX templates

    Shallow embedding of the IPFIXcol intermediate plugin [httpfieldmerge]
    (src/plugins/intermediate/httpfieldmerge/httpfieldmerge.h and
    field_mappings.h): the IE identities, the vendor field arrays, the
    five field-mapping tables and the per-template statistics store.

    The processing routines of the plugin (the template walker, the vendor
    recognizer and the rewrite engine of httpfieldmerge.c) are not part of
    the sources at hand; they are modelled from the spec below and marked
    as such. *)

From Stdlib Require Import ZArith Lia Bool List.
From Stdlib Require Import Strings.Byte.
From stdpp Require Import base gmap.
Import ListNotations.
Open Scope Z_scope.

(* ------------------------------------------------------------------ *)
(** ** Constants of httpfieldmerge.h *)

Definition NFV9_CONVERSION_PEN : Z := 0xFFFFFFFF.
Definition TEMPL_MAX_LEN : Z := 100000.

Definition CISCO_PEN : Z := 9.
Definition INVEA_PEN : Z := 39499.
Definition MASARYK_PEN : Z := 16982.
Definition NTOP_PEN : Z := 35632.
Definition RS_PEN : Z := 44913.
Definition TARGET_PEN : Z := RS_PEN.

(** [struct ipfix_entity { uint32_t pen; uint16_t element_id; }] *)
Record ipfix_entity := mk_entity { pen : Z; element_id : Z }.

Definition entity_eqb (a b : ipfix_entity) : bool :=
  (pen a =? pen b) && (element_id a =? element_id b).

(** Cisco uses four instances of e9id12235: URL, hostname, user agent,
    unknown, always in that order (comment of httpfieldmerge.h). *)
Definition ciscoHttpHost := mk_entity CISCO_PEN 12235.
Definition ciscoHttpUrl := mk_entity CISCO_PEN 12235.
Definition ciscoHttpUserAgent := mk_entity CISCO_PEN 12235.
Definition ciscoHttpUnknown := mk_entity CISCO_PEN 12235.
Definition cisco_field_count : Z := 4.

Definition inveaHttpHost := mk_entity INVEA_PEN 1.
Definition inveaHttpUrl := mk_entity INVEA_PEN 2.
Definition inveaHttpUserAgent := mk_entity INVEA_PEN 20.
Definition invea_field_count : Z := 3.

Definition masarykHttpHost := mk_entity MASARYK_PEN 501.
Definition masarykHttpUrl := mk_entity MASARYK_PEN 502.
Definition masarykHttpUserAgent := mk_entity MASARYK_PEN 504.
Definition masaryk_field_count : Z := 3.

Definition ntopHttpHost := mk_entity NTOP_PEN 187.
Definition ntopHttpUrl := mk_entity NTOP_PEN 180.
Definition ntopHttpUserAgent := mk_entity NTOP_PEN 183.
Definition ntop_field_count : Z := 3.

(** Original NetFlow v9 ids 57659, 57652, 57655. *)
Definition ntopHttpHostv9 := mk_entity NFV9_CONVERSION_PEN 24891.
Definition ntopHttpUrlv9 := mk_entity NFV9_CONVERSION_PEN 24884.
Definition ntopHttpUserAgentv9 := mk_entity NFV9_CONVERSION_PEN 24887.

Definition rsHttpHost := mk_entity RS_PEN 20.
Definition rsHttpUrl := mk_entity RS_PEN 21.
Definition rsHttpUserAgent := mk_entity RS_PEN 22.
Definition rs_field_count : Z := 3.

Definition targetHttpHost := mk_entity TARGET_PEN 20.
Definition targetHttpUrl := mk_entity TARGET_PEN 21.
Definition targetHttpUserAgent := mk_entity TARGET_PEN 22.

Definition cisco_fields : list ipfix_entity :=
  [ciscoHttpHost; ciscoHttpUrl; ciscoHttpUserAgent; ciscoHttpUnknown].
Definition invea_fields : list ipfix_entity :=
  [inveaHttpHost; inveaHttpUrl; inveaHttpUserAgent].
Definition masaryk_fields : list ipfix_entity :=
  [masarykHttpHost; masarykHttpUrl; masarykHttpUserAgent].
Definition ntop_fields : list ipfix_entity :=
  [ntopHttpHost; ntopHttpUrl; ntopHttpUserAgent].
Definition ntopv9_fields : list ipfix_entity :=
  [ntopHttpHostv9; ntopHttpUrlv9; ntopHttpUserAgentv9].
Definition rs_fields : list ipfix_entity :=
  [rsHttpHost; rsHttpUrl; rsHttpUserAgent].

Definition vendor_fields_count : Z := 3.

(** [struct field_mapping { struct ipfix_entity from, to; }]; [from] is a
    Rocq keyword, hence the [map_] prefix. *)
Record field_mapping := mk_mapping { map_from : ipfix_entity; map_to : ipfix_entity }.

Definition invea_field_mappings : list field_mapping :=
  [ mk_mapping inveaHttpHost targetHttpHost;
    mk_mapping inveaHttpUrl targetHttpUrl;
    mk_mapping inveaHttpUserAgent targetHttpUserAgent ].
Definition masaryk_field_mappings : list field_mapping :=
  [ mk_mapping masarykHttpHost targetHttpHost;
    mk_mapping masarykHttpUrl targetHttpUrl;
    mk_mapping masarykHttpUserAgent targetHttpUserAgent ].
Definition ntop_field_mappings : list field_mapping :=
  [ mk_mapping ntopHttpHost targetHttpHost;
    mk_mapping ntopHttpUrl targetHttpUrl;
    mk_mapping ntopHttpUserAgent targetHttpUserAgent ].
Definition ntopv9_field_mappings : list field_mapping :=
  [ mk_mapping ntopHttpHostv9 targetHttpHost;
    mk_mapping ntopHttpUrlv9 targetHttpUrl;
    mk_mapping ntopHttpUserAgentv9 targetHttpUserAgent ].
Definition rs_field_mappings : list field_mapping :=
  [ mk_mapping rsHttpHost targetHttpHost;
    mk_mapping rsHttpUrl targetHttpUrl;
    mk_mapping rsHttpUserAgent targetHttpUserAgent ].

(** The vendors, as the source names its arrays ([cisco_], [invea_],
    [masaryk_], [ntop_] and [ntopv9_], [rs_]). *)
Inductive vendor := Cisco | Invea | Masaryk | Ntop | Rs.

Definition vendor_eqb (a b : vendor) : bool :=
  match a, b with
  | Cisco, Cisco | Invea, Invea | Masaryk, Masaryk | Ntop, Ntop | Rs, Rs => true
  | _, _ => false
  end.

(** The static field-mapping tables of the plugin, in declaration order,
    tagged with the vendor named by each array. *)
Definition field_mapping_tables : list (vendor * list field_mapping) :=
  [ (Invea, invea_field_mappings);
    (Masaryk, masaryk_field_mappings);
    (Ntop, ntop_field_mappings);
    (Ntop, ntopv9_field_mappings);
    (Rs, rs_field_mappings) ].

(** The vendor field arrays in declaration order, each with the PEN its
    fields carry. *)
Definition vendor_signatures : list (Z * list ipfix_entity) :=
  [ (CISCO_PEN, cisco_fields);
    (INVEA_PEN, invea_fields);
    (MASARYK_PEN, masaryk_fields);
    (NTOP_PEN, ntop_fields);
    (NFV9_CONVERSION_PEN, ntopv9_fields);
    (RS_PEN, rs_fields) ].

(** The mapping table used for a matched PEN; Cisco has none. *)
Definition field_mappings_of (p : Z) : option (list field_mapping) :=
  if p =? INVEA_PEN then Some invea_field_mappings
  else if p =? MASARYK_PEN then Some masaryk_field_mappings
  else if p =? NTOP_PEN then Some ntop_field_mappings
  else if p =? NFV9_CONVERSION_PEN then Some ntopv9_field_mappings
  else if p =? RS_PEN then Some rs_field_mappings
  else None.

(* ------------------------------------------------------------------ *)
(** ** Bytes of an IPFIX message (network byte order) *)

Definition get8 (b : byte) : Z := Z.of_N (Byte.to_N b).

(** Store the low 8 bits of [z] ([uint8_t] truncation). *)
Definition byte_of_Z (z : Z) : byte :=
  match Byte.of_N (Z.to_N (z mod 256)) with Some b => b | None => Byte.x00 end.

Definition get16 (b0 b1 : byte) : Z := get8 b0 * 256 + get8 b1.
Definition get32 (b0 b1 b2 b3 : byte) : Z :=
  ((get8 b0 * 256 + get8 b1) * 256 + get8 b2) * 256 + get8 b3.

Definition put16 (z : Z) : list byte := [byte_of_Z (z / 256); byte_of_Z z].
Definition put32 (z : Z) : list byte :=
  [byte_of_Z (z / 16777216); byte_of_Z (z / 65536); byte_of_Z (z / 256); byte_of_Z z].

(* ------------------------------------------------------------------ *)
(** ** Field specifiers *)

(** One field specifier of a template record: the raw 16-bit element id
    (top bit = enterprise flag), the field length (0xFFFF = variable) and
    the enterprise number, present iff the enterprise flag is set. *)
Module Field.
Record t := mk { element_id : Z; field_length : Z; enterprise_number : option Z }.
End Field.

Definition ENTERPRISE_BIT : Z := 0x8000.
Definition VAR_LEN : Z := 0xFFFF.

(** Effective IE identity of a field specifier. *)
Definition ident (f : Field.t) : ipfix_entity :=
  mk_entity (match Field.enterprise_number f with Some p => p | None => 0 end)
            (Z.land (Field.element_id f) 0x7FFF).

Definition parse_field (bs : list byte) : option (Field.t * list byte) :=
  match bs with
  | b0 :: b1 :: b2 :: b3 :: rest =>
      let id := get16 b0 b1 in
      let len := get16 b2 b3 in
      if Z.testbit id 15 then
        match rest with
        | p0 :: p1 :: p2 :: p3 :: rest' =>
            Some (Field.mk id len (Some (get32 p0 p1 p2 p3)), rest')
        | _ => None
        end
      else Some (Field.mk id len None, rest)
  | _ => None
  end.

Definition encode_field (f : Field.t) : list byte :=
  put16 (Field.element_id f) ++ put16 (Field.field_length f) ++
  match Field.enterprise_number f with Some p => put32 p | None => [] end.

Fixpoint parse_fields (n : nat) (bs : list byte) : option (list Field.t * list byte) :=
  match n with
  | O => Some ([], bs)
  | S n' =>
      match parse_field bs with
      | Some (f, rest) =>
          match parse_fields n' rest with
          | Some (fs, rest') => Some (f :: fs, rest')
          | None => None
          end
      | None => None
      end
  end.

Definition encode_fields (fs : list Field.t) : list byte := concat (map encode_field fs).

(** A field specifier as it can appear on the wire. *)
Definition wf_field (f : Field.t) : Prop :=
  0 <= Field.element_id f < 65536 /\ 0 <= Field.field_length f < 65536 /\
  match Field.enterprise_number f with
  | Some p => Z.testbit (Field.element_id f) 15 = true /\ 0 <= p < 4294967296
  | None => Z.testbit (Field.element_id f) 15 = false
  end.

(* ------------------------------------------------------------------ *)
(** ** Vendor recognizer *)

Definition count_entity (e : ipfix_entity) (l : list ipfix_entity) : nat :=
  length (List.filter (entity_eqb e) l).

(** Modelled from the spec: the vendor recognizer of httpfieldmerge.c is
    missing. A vendor signature matches when every identity of the
    vendor's field array occurs in the template at least as often as in
    the array: once for the single-occurrence vendors, four times for the
    Cisco identity e9id12235. *)
Definition sig_matches (sig ids : list ipfix_entity) : bool :=
  forallb (fun e => Nat.leb (count_entity e sig) (count_entity e ids)) sig.

Fixpoint recognize_in (sigs : list (Z * list ipfix_entity)) (ids : list ipfix_entity)
  : option Z :=
  match sigs with
  | [] => None
  | (p, sig) :: sigs' => if sig_matches sig ids then Some p else recognize_in sigs' ids
  end.

(** Modelled from the spec: vendors are tried in the declaration order of
    their field arrays; the verdict is the matched vendor's PEN. *)
Definition recognize (ids : list ipfix_entity) : option Z :=
  recognize_in vendor_signatures ids.

(* ------------------------------------------------------------------ *)
(** ** Template rewrite engine *)

(** Replace the identity of a field, keeping its field length. The
    canonical identities are enterprise-specific, so the specifier keeps
    its 8-byte layout. *)
Definition retarget (f : Field.t) (to : ipfix_entity) : Field.t :=
  Field.mk (Z.lor (element_id to) ENTERPRISE_BIT) (Field.field_length f) (Some (pen to)).

(** Modelled from the spec: a field whose identity is the [from] of an
    entry of the table takes that entry's [to]. *)
Definition apply_mapping (tbl : list field_mapping) (f : Field.t) : Field.t :=
  match find (fun m => entity_eqb (map_from m) (ident f)) tbl with
  | Some m => retarget f (map_to m)
  | None => f
  end.

(** Modelled from the spec: the k-th occurrence (from 0) of the shared
    Cisco identity, in the emission order of the header's comment:
    URL, hostname, user agent, unknown. *)
Definition cisco_target (k : nat) : option ipfix_entity :=
  match k with
  | O => Some targetHttpUrl
  | 1%nat => Some targetHttpHost
  | 2%nat => Some targetHttpUserAgent
  | _ => None
  end.

Fixpoint cisco_rewrite (k : nat) (fs : list Field.t) : list Field.t :=
  match fs with
  | [] => []
  | f :: fs' =>
      if entity_eqb (ident f) ciscoHttpUrl then
        match cisco_target k with
        | Some t => retarget f t
        | None => f
        end :: cisco_rewrite (S k) fs'
      else f :: cisco_rewrite k fs'
  end.

(** Modelled from the spec: rewrite a field list under a verdict. *)
Definition rewrite_fields (v : option Z) (fs : list Field.t) : list Field.t :=
  match v with
  | None => fs
  | Some p =>
      if p =? CISCO_PEN then cisco_rewrite 0 fs
      else match field_mappings_of p with
           | Some tbl => map (apply_mapping tbl) fs
           | None => fs
           end
  end.

Definition template_rewrite (fs : list Field.t) : option Z * list Field.t :=
  let v := recognize (map ident fs) in (v, rewrite_fields v fs).

(* ------------------------------------------------------------------ *)
(** ** Template statistics store and plugin configuration *)

Module Stats.
(** [struct templ_stats_elem_t]; the [UT_hash_handle] is the hash table's
    own bookkeeping and is represented by the map below. *)
Record templ_stats_elem_t := mk {
  id : Z;
  http_fields_pen : Z;
  http_fields_pen_determined : bool
}.
End Stats.

(** [struct httpfieldmerge_config]; pointers are kept as addresses. *)
Record httpfieldmerge_config := mk_config {
  params : Strings.String.string;
  ip_config : Z;
  ip_id : Z;
  tm : Z;
  templ_stats : gmap Z Stats.templ_stats_elem_t
}.

Definition with_templ_stats (c : httpfieldmerge_config)
    (st : gmap Z Stats.templ_stats_elem_t) : httpfieldmerge_config :=
  mk_config (params c) (ip_config c) (ip_id c) (tm c) st.

(** Modelled from the spec: [put] overwrites any prior entry; an unmatched
    template is recorded as determined with PEN 0 (no vendor). *)
Definition templ_stats_put (tid : Z) (v : option Z)
    (st : gmap Z Stats.templ_stats_elem_t) : gmap Z Stats.templ_stats_elem_t :=
  <[tid := Stats.mk tid (match v with Some p => p | None => 0 end) true]> st.

Definition templ_stats_get (tid : Z) (st : gmap Z Stats.templ_stats_elem_t)
  : option Stats.templ_stats_elem_t := st !! tid.

(** Modelled from the spec: a withdrawal invalidates the cached verdict. *)
Definition templ_stats_del (tid : Z) (st : gmap Z Stats.templ_stats_elem_t)
  : gmap Z Stats.templ_stats_elem_t := delete tid st.

(* ------------------------------------------------------------------ *)
(** ** Template walker *)

Definition TEMPL_SET_ID : Z := 2.
Definition OPT_TEMPL_SET_ID : Z := 3.
Definition IPFIX_HEADER_LEN : nat := 16.

Definition is_template_set (set_id : Z) : bool :=
  (set_id =? TEMPL_SET_ID) || (set_id =? OPT_TEMPL_SET_ID).

Abbreviation store := (gmap Z Stats.templ_stats_elem_t).

(** The scope field count that follows the record header of an options
    template. *)
Definition take_scope (opt : bool) (tl : list byte) : option (list byte * list byte) :=
  if opt then
    match tl with s0 :: s1 :: tl' => Some ([s0; s1], tl') | _ => None end
  else Some ([], tl).

(** Modelled from the spec: the template records of one (options)
    template set body. Fewer than 4 remaining bytes are padding; a record
    with field count 0 is a withdrawal; a record whose field specifiers
    overrun the set is a parse error ([false]): it and the rest of the body
    are passed through unchanged. Every other record is classified, its
    verdict is stored under its template id (a redefinition overwrites),
    and its field specifiers are rewritten in place. *)
Fixpoint process_records (fuel : nat) (opt : bool) (st : store) (body : list byte)
  : store * list byte * bool :=
  match fuel with
  | O => (st, body, true)
  | S fuel' =>
      match body with
      | b0 :: b1 :: b2 :: b3 :: tl =>
          let tid := get16 b0 b1 in
          let cnt := get16 b2 b3 in
          if cnt =? 0 then
            let '(st', tl', ok) := process_records fuel' opt (templ_stats_del tid st) tl in
            (st', b0 :: b1 :: b2 :: b3 :: tl', ok)
          else
            match take_scope opt tl with
            | None => (st, body, false)
            | Some (sc, tl2) =>
                match parse_fields (Z.to_nat cnt) tl2 with
                | None => (st, body, false)
                | Some (fs, rest) =>
                    let '(v, fs') := template_rewrite fs in
                    let '(st', rest', ok) :=
                      process_records fuel' opt (templ_stats_put tid v st) rest in
                    (st', b0 :: b1 :: b2 :: b3 :: sc ++ encode_fields fs' ++ rest', ok)
                end
            end
      | _ => (st, body, true)
      end
  end.

(** Modelled from the spec: the sets of a message after its header. A set
    header whose length is below 4 or beyond the buffer, or fewer than 4
    trailing bytes, ends the walk and the tail is passed through. Data sets
    are copied; template and options template sets are processed; a parse
    error inside one aborts the walk for the rest of the message. *)
Fixpoint process_sets (fuel : nat) (st : store) (bs : list byte) : store * list byte :=
  match fuel with
  | O => (st, bs)
  | S fuel' =>
      match bs with
      | b0 :: b1 :: b2 :: b3 :: tl =>
          let set_id := get16 b0 b1 in
          let len := Z.to_nat (get16 b2 b3) in
          if (len <? 4)%nat || (length tl <? len - 4)%nat then (st, bs)
          else
            let body := firstn (len - 4) tl in
            let rest := skipn (len - 4) tl in
            if is_template_set set_id then
              let '(st1, body', ok) :=
                process_records (length body) (set_id =? OPT_TEMPL_SET_ID) st body in
              if ok then
                let '(st2, rest') := process_sets fuel' st1 rest in
                (st2, b0 :: b1 :: b2 :: b3 :: body' ++ rest')
              else (st1, b0 :: b1 :: b2 :: b3 :: body' ++ rest)
            else
              let '(st2, rest') := process_sets fuel' st rest in
              (st2, b0 :: b1 :: b2 :: b3 :: body ++ rest')
      | _ => (st, bs)
      end
  end.

(** Modelled from the spec: [process(raw_message, session_config)]. The
    16-byte IPFIX message header is kept; the store lives in the plugin
    configuration and is threaded from one message to the next. *)
Definition process_message (conf : httpfieldmerge_config) (msg : list byte)
  : httpfieldmerge_config * list byte :=
  if (length msg <? IPFIX_HEADER_LEN)%nat then (conf, msg)
  else
    let sets := skipn IPFIX_HEADER_LEN msg in
    let '(st', sets') := process_sets (length sets) (templ_stats conf) sets in
    (with_templ_stats conf st', firstn IPFIX_HEADER_LEN msg ++ sets').

(* ------------------------------------------------------------------ *)
(** ** Views of a message, as the walker parses it *)

(** The sets of a message as (set id, body), and the unparsed tail. *)
Fixpoint sets_view (fuel : nat) (bs : list byte) : list (Z * list byte) * list byte :=
  match fuel with
  | O => ([], bs)
  | S fuel' =>
      match bs with
      | b0 :: b1 :: b2 :: b3 :: tl =>
          let len := Z.to_nat (get16 b2 b3) in
          if (len <? 4)%nat || (length tl <? len - 4)%nat then ([], bs)
          else
            let '(svs, tail) := sets_view fuel' (skipn (len - 4) tl) in
            ((get16 b0 b1, firstn (len - 4) tl) :: svs, tail)
      | _ => ([], bs)
      end
  end.

Definition message_sets (msg : list byte) : list (Z * list byte) * list byte :=
  let sets := skipn IPFIX_HEADER_LEN msg in sets_view (length sets) sets.

(** A parsed template record: template id, field specifiers and the
    record's bytes. *)
Record rec_view := mk_rec_view { rv_tid : Z; rv_fields : list Field.t; rv_bytes : list byte }.

(** The template records of a template set body, and the bytes after the
    last record (padding, or the record where parsing failed onwards). *)
Fixpoint records_view (fuel : nat) (opt : bool) (body : list byte)
  : list rec_view * list byte :=
  match fuel with
  | O => ([], body)
  | S fuel' =>
      match body with
      | b0 :: b1 :: b2 :: b3 :: tl =>
          let tid := get16 b0 b1 in
          let cnt := get16 b2 b3 in
          if cnt =? 0 then
            let '(rvs, tail) := records_view fuel' opt tl in
            (mk_rec_view tid [] [b0; b1; b2; b3] :: rvs, tail)
          else
            match take_scope opt tl with
            | None => ([], body)
            | Some (sc, tl2) =>
                match parse_fields (Z.to_nat cnt) tl2 with
                | None => ([], body)
                | Some (fs, rest) =>
                    let '(rvs, tail) := records_view fuel' opt rest in
                    (mk_rec_view tid fs (firstn (length body - length rest) body) :: rvs,
                     tail)
                end
            end
      | _ => ([], body)
      end
  end.

Definition set_records (set : Z * list byte) : list rec_view * list byte :=
  records_view (length (snd set)) (fst set =? OPT_TEMPL_SET_ID) (snd set).

(** A template record of the output against the record of the input at
    the same position: same template id, same field lengths, and the same
    bytes when no vendor signature matched the input record. *)
Definition rec_rel (r r' : rec_view) : Prop :=
  rv_tid r' = rv_tid r /\
  map Field.field_length (rv_fields r') = map Field.field_length (rv_fields r) /\
  (recognize (map ident (rv_fields r)) = None -> rv_bytes r' = rv_bytes r).

Definition records_rel (v v' : list rec_view * list byte) : Prop :=
  Forall2 rec_rel (fst v) (fst v') /\ snd v' = snd v.

(** A set of the output against the set of the input at the same
    position: same set id and length; a data set has the same bytes; the
    records of a template set are related by [rec_rel]. *)
Definition set_rel (s s' : Z * list byte) : Prop :=
  fst s' = fst s /\ length (snd s') = length (snd s) /\
  (is_template_set (fst s) = false -> snd s' = snd s) /\
  (is_template_set (fst s) = true -> records_rel (set_records s) (set_records s')).

Definition sets_rel (v v' : list (Z * list byte) * list byte) : Prop :=
  Forall2 set_rel (fst v) (fst v') /\ snd v' = snd v.

(* ------------------------------------------------------------------ *)
(** ** Test vectors *)

(** Bytes of a field specifier with the given identity and length. *)
Definition field_bytes (e : ipfix_entity) (len : Z) : list byte :=
  encode_field (Field.mk (Z.lor (element_id e) ENTERPRISE_BIT) len (Some (pen e))).

(** A message with one template set holding one template record. *)
Definition template_message (tid : Z) (fields : list (ipfix_entity * Z)) : list byte :=
  let fb := concat (map (fun '(e, l) => field_bytes e l) fields) in
  let rec := put16 tid ++ put16 (Z.of_nat (length fields)) ++ fb in
  repeat Byte.x00 IPFIX_HEADER_LEN ++
  put16 TEMPL_SET_ID ++ put16 (Z.of_nat (4 + length rec)) ++ rec.

(** A data set for template [tid] carrying [payload]. *)
Definition data_set (tid : Z) (payload : list byte) : list byte :=
  put16 tid ++ put16 (Z.of_nat (4 + length payload)) ++ payload.

(** A field specifier of the shared Cisco identity, and an IANA one. *)
Definition cisco_field (len : Z) : Field.t :=
  Field.mk (Z.lor (element_id ciscoHttpUrl) ENTERPRISE_BIT) len (Some CISCO_PEN).
Definition iana_field (ie len : Z) : Field.t := Field.mk ie len None.

(** Cisco's four HTTP fields, as Cisco exports them. *)
Definition cisco_template_fields : list Field.t :=
  [cisco_field VAR_LEN; cisco_field VAR_LEN; cisco_field VAR_LEN; cisco_field 16].

(** A field specifier carrying identity [e] with field length [len]. *)
Definition entity_field (e : ipfix_entity) (len : Z) : Field.t :=
  Field.mk (Z.lor (element_id e) ENTERPRISE_BIT) len (Some (pen e)).

(** Every entry of the store is keyed by a 16-bit template id, the id the
    entry itself records. *)
Definition store_ok (st : store) : Prop :=
  forall k e, st !! k = Some e -> 0 <= k < 65536 /\ Stats.id e = k.

(** A message of a header and one data set. *)
Definition data_message (tid : Z) (payload : list byte) : list byte :=
  repeat Byte.x00 IPFIX_HEADER_LEN ++ data_set tid payload.

Definition empty_config : httpfieldmerge_config :=
  mk_config Strings.String.EmptyString 0 0 0 empty.

(** The PENs of the vendor signatures, other than the canonical one,
    that match a template's identities. *)
Definition vendor_matches (ids : list ipfix_entity) : list Z :=
  map fst (List.filter (fun s => negb (fst s =? RS_PEN) && sig_matches (snd s) ids)
                       vendor_signatures).

(** A template record whose rewrite is a fixed point of the engine: at
    most one vendor signature other than the canonical one matches it, and
    it has fewer than seven fields of the Cisco identity. *)
Definition rewrite_settles (ids : list ipfix_entity) : bool :=
  (length (vendor_matches ids) <=? 1)%nat && (count_entity ciscoHttpUrl ids <? 7)%nat.

(** Every template record of every template set of the message settles. *)
Definition message_settles (msg : list byte) : bool :=
  forallb (fun s => negb (is_template_set (fst s)) ||
                    forallb (fun r => rewrite_settles (map ident (rv_fields r)))
                            (fst (set_records s)))
          (fst (message_sets msg)).

(** The canonical identities, in the order hostname, URL, user agent. *)
Definition targets : list ipfix_entity := [targetHttpHost; targetHttpUrl; targetHttpUserAgent].

(** Every IE identity the header declares: the vendor field arrays (the
    [from] columns of the tables) and the canonical targets. *)
Definition header_identities : list ipfix_entity :=
  cisco_fields ++ invea_fields ++ masaryk_fields ++ ntop_fields ++ ntopv9_fields ++
  rs_fields ++ targets.

(** Whether a template record of a template set of the message carries
    template id [k] (a definition or a withdrawal). *)
Definition message_names (msg : list byte) (k : Z) : bool :=
  existsb (fun s => is_template_set (fst s) &&
                    existsb (fun r => rv_tid r =? k) (fst (set_records s)))
          (fst (message_sets msg)).

(* ================================================================== *)
(** * Lemmas *)

(** ** Byte codec *)

(** Arithmetic with division and remainder by constants. *)
Ltac lia_div := Z.to_euclidean_division_equations; lia.

(** Refute membership of a closed identity in a closed list. *)
Ltac not_in_closed :=
  let H := fresh "H" in
  intros H; simpl in H;
  repeat match type of H with
         | _ \/ _ => destruct H as [H|H]; [cbv in H; discriminate H|]
         end;
  contradiction.

Lemma get8_range (b : byte) : 0 <= get8 b < 256.
Proof.
  unfold get8. pose proof (Byte.to_N_bounded b). lia.
Qed.

Lemma get8_byte_of_Z (z : Z) : get8 (byte_of_Z z) = z mod 256.
Proof.
  unfold get8, byte_of_Z.
  destruct (Byte.of_N (Z.to_N (z mod 256))) as [b|] eqn:E.
  - apply Byte.to_of_N in E. rewrite E. apply Z2N.id.
    pose proof (Z.mod_pos_bound z 256). lia.
  - apply Byte.of_N_None_iff in E. pose proof (Z.mod_pos_bound z 256). lia.
Qed.

Lemma byte_of_Z_get8 (b : byte) : byte_of_Z (get8 b) = b.
Proof.
  unfold byte_of_Z, get8. pose proof (Byte.to_N_bounded b).
  rewrite Z.mod_small by lia. rewrite N2Z.id. by rewrite Byte.of_to_N.
Qed.

Lemma byte_of_Z_mod_eq (z1 z2 : Z) : z1 mod 256 = z2 mod 256 -> byte_of_Z z1 = byte_of_Z z2.
Proof. intros H. unfold byte_of_Z. by rewrite H. Qed.

Lemma put16_get16 (b0 b1 : byte) : put16 (get16 b0 b1) = [b0; b1].
Proof.
  unfold put16, get16.
  pose proof (get8_range b0). pose proof (get8_range b1).
  replace ((get8 b0 * 256 + get8 b1) / 256) with (get8 b0) by lia_div.
  replace (byte_of_Z (get8 b0 * 256 + get8 b1)) with (byte_of_Z (get8 b1)).
  - by rewrite !byte_of_Z_get8.
  - apply byte_of_Z_mod_eq. lia_div.
Qed.

Lemma get16_put16 (z : Z) :
  0 <= z < 65536 -> get16 (byte_of_Z (z / 256)) (byte_of_Z z) = z.
Proof.
  intros H. unfold get16. rewrite !get8_byte_of_Z.
  lia_div.
Qed.

Lemma get16_range (b0 b1 : byte) : 0 <= get16 b0 b1 < 65536.
Proof.
  unfold get16. pose proof (get8_range b0). pose proof (get8_range b1). lia.
Qed.

Lemma put32_get32 (b0 b1 b2 b3 : byte) : put32 (get32 b0 b1 b2 b3) = [b0; b1; b2; b3].
Proof.
  unfold put32, get32.
  pose proof (get8_range b0). pose proof (get8_range b1).
  pose proof (get8_range b2). pose proof (get8_range b3).
  transitivity [byte_of_Z (get8 b0); byte_of_Z (get8 b1); byte_of_Z (get8 b2);
                byte_of_Z (get8 b3)]; [| by rewrite !byte_of_Z_get8].
  set (x0 := get8 b0). set (x1 := get8 b1). set (x2 := get8 b2). set (x3 := get8 b3).
  f_equal; [|f_equal; [|f_equal; [|f_equal]]]; apply byte_of_Z_mod_eq; lia_div.
Qed.

Lemma get32_range (b0 b1 b2 b3 : byte) : 0 <= get32 b0 b1 b2 b3 < 4294967296.
Proof.
  unfold get32. pose proof (get8_range b0). pose proof (get8_range b1).
  pose proof (get8_range b2). pose proof (get8_range b3). lia.
Qed.

Lemma get32_put32 (z : Z) :
  0 <= z < 4294967296 ->
  get32 (byte_of_Z (z / 16777216)) (byte_of_Z (z / 65536)) (byte_of_Z (z / 256)) (byte_of_Z z) = z.
Proof.
  intros H. unfold get32. rewrite !get8_byte_of_Z. lia_div.
Qed.

(** ** Field specifier codec *)

Lemma parse_encode_field (f : Field.t) (rest : list byte) :
  wf_field f -> parse_field (encode_field f ++ rest) = Some (f, rest).
Proof.
  destruct f as [i l e]. unfold wf_field, encode_field, parse_field, put16.
  cbn [Field.element_id Field.field_length Field.enterprise_number].
  intros (Hi & Hl & He). rewrite <- !app_assoc. cbn [app].
  rewrite !get16_put16 by lia.
  destruct e as [p|].
  - destruct He as [-> Hp]. unfold put32. cbn [app].
    rewrite get32_put32 by lia. reflexivity.
  - rewrite He. reflexivity.
Qed.

Lemma parse_field_inv (bs : list byte) (f : Field.t) (rest : list byte) :
  parse_field bs = Some (f, rest) -> bs = encode_field f ++ rest /\ wf_field f.
Proof.
  unfold parse_field.
  destruct bs as [|b0 [|b1 [|b2 [|b3 tl]]]]; try discriminate.
  destruct (Z.testbit (get16 b0 b1) 15) eqn:Hb.
  - destruct tl as [|p0 [|p1 [|p2 [|p3 tl']]]]; try discriminate.
    intros H. injection H as <- <-. unfold encode_field, wf_field.
    cbn [Field.element_id Field.field_length Field.enterprise_number].
    rewrite !put16_get16, put32_get32. split; [reflexivity|].
    pose proof (get16_range b0 b1). pose proof (get16_range b2 b3).
    pose proof (get32_range p0 p1 p2 p3). auto.
  - intros H. injection H as <- <-. unfold encode_field, wf_field.
    cbn [Field.element_id Field.field_length Field.enterprise_number].
    rewrite !put16_get16. split; [reflexivity|].
    pose proof (get16_range b0 b1). pose proof (get16_range b2 b3). auto.
Qed.

Lemma parse_encode_fields (fs : list Field.t) (rest : list byte) :
  Forall wf_field fs -> parse_fields (length fs) (encode_fields fs ++ rest) = Some (fs, rest).
Proof.
  induction fs as [|f fs IH]; intros Hwf; [reflexivity|].
  inversion Hwf as [|? ? Hf Hfs]; subst.
  unfold encode_fields. cbn [map concat length parse_fields]. rewrite <- app_assoc.
  rewrite parse_encode_field by exact Hf. fold (encode_fields fs).
  by rewrite IH.
Qed.

Lemma parse_fields_inv (n : nat) (bs : list byte) (fs : list Field.t) (rest : list byte) :
  parse_fields n bs = Some (fs, rest) ->
  bs = encode_fields fs ++ rest /\ Forall wf_field fs /\ length fs = n.
Proof.
  revert bs fs rest. induction n as [|n IH]; intros bs fs rest; simpl.
  - intros H. injection H as <- <-. split; [reflexivity | split; constructor].
  - destruct (parse_field bs) as [[f r]|] eqn:Hf; [|discriminate].
    destruct (parse_fields n r) as [[fs' r']|] eqn:Hfs; [|discriminate].
    intros H. injection H as <- <-.
    apply parse_field_inv in Hf as [-> Hwf].
    apply IH in Hfs as (-> & Hwfs & Hlen).
    unfold encode_fields. cbn [map concat length]. rewrite <- app_assoc.
    split; [reflexivity | split; [constructor; auto | simpl; lia]].
Qed.

(** ** Lists *)

Lemma firstn_app_exact {A} (l1 l2 : list A) (n : nat) :
  n = length l1 -> firstn n (l1 ++ l2) = l1.
Proof. intros ->. rewrite firstn_app, Nat.sub_diag, firstn_all. simpl. apply app_nil_r. Qed.

Lemma skipn_app_exact {A} (l1 l2 : list A) (n : nat) :
  n = length l1 -> skipn n (l1 ++ l2) = l2.
Proof. intros ->. rewrite skipn_app, Nat.sub_diag, skipn_all. reflexivity. Qed.

Lemma firstn_prefix {A} (x r : list A) : firstn (length (x ++ r) - length r) (x ++ r) = x.
Proof. apply firstn_app_exact. rewrite length_app. lia. Qed.

Lemma Forall2_diag {A} (R : A -> A -> Prop) (l : list A) :
  (forall x, R x x) -> Forall2 R l l.
Proof. intros HR. induction l; constructor; auto. Qed.

(** ** The rewrite engine on field specifiers *)


Lemma retarget_wf (f : Field.t) (t : ipfix_entity) :
  In t targets -> wf_field f -> wf_field (retarget f t).
Proof.
  intros Ht (_ & Hl & _).
  unfold wf_field, retarget. cbn [Field.element_id Field.field_length Field.enterprise_number].
  simpl in Ht. destruct Ht as [<-|[<-|[<-|[]]]]; simpl;
    unfold ENTERPRISE_BIT, TARGET_PEN, RS_PEN;
    match goal with |- context [Z.lor ?a ?b] =>
      let v := eval vm_compute in (Z.lor a b) in change (Z.lor a b) with v end;
    repeat split; (lia || reflexivity).
Qed.

Lemma tables_to_targets (p : Z) (tbl : list field_mapping) :
  field_mappings_of p = Some tbl -> Forall (fun m => In (map_to m) targets) tbl.
Proof.
  unfold field_mappings_of.
  repeat match goal with |- context [if ?c then _ else _] => destruct c end;
    intros H; try discriminate; injection H as <-;
    cbv [invea_field_mappings masaryk_field_mappings ntop_field_mappings
         ntopv9_field_mappings rs_field_mappings];
    repeat (apply List.Forall_cons; [unfold targets; simpl; tauto|]); apply List.Forall_nil.
Qed.

Lemma apply_mapping_wf (p : Z) (tbl : list field_mapping) (f : Field.t) :
  field_mappings_of p = Some tbl -> wf_field f -> wf_field (apply_mapping tbl f).
Proof.
  intros Htbl Hf. unfold apply_mapping.
  destruct (find _ tbl) as [m|] eqn:Hfind; [|exact Hf].
  apply find_some in Hfind as [Hin _].
  apply tables_to_targets in Htbl. rewrite List.Forall_forall in Htbl.
  apply retarget_wf; auto.
Qed.

Lemma cisco_rewrite_wf (k : nat) (fs : list Field.t) :
  Forall wf_field fs -> Forall wf_field (cisco_rewrite k fs).
Proof.
  revert k. induction fs as [|f fs IH]; intros k Hwf; [constructor|].
  inversion Hwf as [|? ? Hf Hfs]; subst. simpl.
  destruct (entity_eqb _ _); constructor; auto.
  destruct k as [|[|[|k]]]; simpl; auto; apply retarget_wf; simpl; auto.
Qed.

Lemma cisco_rewrite_lengths (k : nat) (fs : list Field.t) :
  map Field.field_length (cisco_rewrite k fs) = map Field.field_length fs.
Proof.
  revert k. induction fs as [|f fs IH]; intros k; [reflexivity|]. simpl.
  destruct (entity_eqb _ _); simpl; f_equal; auto.
  destruct (cisco_target k); reflexivity.
Qed.

Lemma apply_mapping_length (tbl : list field_mapping) (f : Field.t) :
  Field.field_length (apply_mapping tbl f) = Field.field_length f.
Proof. unfold apply_mapping. by destruct (find _ tbl). Qed.

Lemma rewrite_fields_wf (v : option Z) (fs : list Field.t) :
  Forall wf_field fs -> Forall wf_field (rewrite_fields v fs).
Proof.
  intros Hwf. unfold rewrite_fields. destruct v as [p|]; [|exact Hwf].
  destruct (p =? CISCO_PEN); [by apply cisco_rewrite_wf|].
  destruct (field_mappings_of p) as [tbl|] eqn:Htbl; [|exact Hwf].
  apply Forall_map. eapply Forall_impl; [exact Hwf|]. intros f. by apply apply_mapping_wf with p.
Qed.

Lemma rewrite_fields_lengths (v : option Z) (fs : list Field.t) :
  map Field.field_length (rewrite_fields v fs) = map Field.field_length fs.
Proof.
  unfold rewrite_fields. destruct v as [p|]; [|reflexivity].
  destruct (p =? CISCO_PEN); [apply cisco_rewrite_lengths|].
  destruct (field_mappings_of p); [|reflexivity].
  rewrite map_map. apply map_ext. apply apply_mapping_length.
Qed.

Lemma rewrite_fields_count (v : option Z) (fs : list Field.t) :
  length (rewrite_fields v fs) = length fs.
Proof.
  rewrite <- (length_map Field.field_length (rewrite_fields v fs)).
  rewrite rewrite_fields_lengths. apply length_map.
Qed.

(** ** The walker: frame lemmas *)

Lemma take_scope_inv (opt : bool) (tl sc tl2 : list byte) :
  take_scope opt tl = Some (sc, tl2) ->
  tl = sc ++ tl2 /\ forall x, take_scope opt (sc ++ x) = Some (sc, x).
Proof.
  unfold take_scope. destruct opt.
  - destruct tl as [|s0 [|s1 tl']]; try discriminate.
    intros H. injection H as <- <-. split; reflexivity.
  - intros H. injection H as <- <-. split; reflexivity.
Qed.

Lemma rec_rel_refl (r : rec_view) : rec_rel r r.
Proof. unfold rec_rel. auto. Qed.

Lemma records_rel_refl (v : list rec_view * list byte) : records_rel v v.
Proof. split; [apply Forall2_diag, rec_rel_refl | reflexivity]. Qed.

Lemma template_rewrite_spec (fs : list Field.t) :
  template_rewrite fs = (recognize (map ident fs), rewrite_fields (recognize (map ident fs)) fs).
Proof. reflexivity. Qed.

(** Re-parsing a rewritten template record finds the rewritten fields. *)
Lemma reparse_rewritten (n : nat) (tl2 : list byte) (fs : list Field.t) (rest : list byte)
    (v : option Z) (rest' : list byte) :
  parse_fields n tl2 = Some (fs, rest) ->
  parse_fields n (encode_fields (rewrite_fields v fs) ++ rest') =
    Some (rewrite_fields v fs, rest').
Proof.
  intros Hp. apply parse_fields_inv in Hp as (_ & Hwf & Hlen).
  rewrite <- Hlen, <- (rewrite_fields_count v fs).
  apply parse_encode_fields, rewrite_fields_wf, Hwf.
Qed.

Lemma encode_field_length (f : Field.t) :
  length (encode_field f) = match Field.enterprise_number f with Some _ => 8%nat | None => 4%nat end.
Proof. unfold encode_field. by destruct (Field.enterprise_number f). Qed.

Lemma encode_fields_length (fs : list Field.t) :
  length (encode_fields fs) = list_sum (map (fun f => length (encode_field f)) fs).
Proof.
  induction fs as [|f fs IH]; [reflexivity|].
  unfold encode_fields in *. cbn [map concat list_sum]. by rewrite length_app, IH.
Qed.

Lemma ident_pen_enterprise (f : Field.t) :
  pen (ident f) <> 0 -> exists p, Field.enterprise_number f = Some p.
Proof. unfold ident. simpl. destruct (Field.enterprise_number f); [eauto | done]. Qed.

Lemma retarget_encode_length (f : Field.t) (t : ipfix_entity) :
  pen (ident f) <> 0 -> length (encode_field (retarget f t)) = length (encode_field f).
Proof.
  intros H. destruct (ident_pen_enterprise f H) as [p Hp].
  rewrite !encode_field_length. simpl. by rewrite Hp.
Qed.

Lemma tables_from_pen (p : Z) (tbl : list field_mapping) :
  field_mappings_of p = Some tbl -> Forall (fun m => pen (map_from m) <> 0) tbl.
Proof.
  unfold field_mappings_of.
  repeat match goal with |- context [if ?c then _ else _] => destruct c end;
    intros H; try discriminate; injection H as <-;
    cbv [invea_field_mappings masaryk_field_mappings ntop_field_mappings
         ntopv9_field_mappings rs_field_mappings];
    repeat (apply List.Forall_cons; [simpl; discriminate|]); apply List.Forall_nil.
Qed.

Lemma entity_eqb_eq (a b : ipfix_entity) : entity_eqb a b = true <-> a = b.
Proof.
  destruct a as [p1 e1], b as [p2 e2]. unfold entity_eqb. simpl.
  rewrite andb_true_iff, !Z.eqb_eq. split; [intros [-> ->]; reflexivity | intros H; injection H; auto].
Qed.

Lemma apply_mapping_encode_length (p : Z) (tbl : list field_mapping) (f : Field.t) :
  field_mappings_of p = Some tbl ->
  length (encode_field (apply_mapping tbl f)) = length (encode_field f).
Proof.
  intros Htbl. unfold apply_mapping.
  destruct (find _ tbl) as [m|] eqn:Hfind; [|reflexivity].
  apply find_some in Hfind as [Hin Heq]. apply entity_eqb_eq in Heq.
  apply tables_from_pen in Htbl. rewrite List.Forall_forall in Htbl.
  apply retarget_encode_length. rewrite <- Heq. auto.
Qed.

Lemma cisco_rewrite_encode_length (k : nat) (fs : list Field.t) :
  map (fun f => length (encode_field f)) (cisco_rewrite k fs) =
  map (fun f => length (encode_field f)) fs.
Proof.
  revert k. induction fs as [|f fs IH]; intros k; [reflexivity|]. simpl.
  destruct (entity_eqb (ident f) ciscoHttpUrl) eqn:He; simpl; f_equal; auto.
  apply entity_eqb_eq in He.
  destruct (cisco_target k); [|reflexivity].
  apply retarget_encode_length. rewrite He. simpl. discriminate.
Qed.

Lemma rewrite_fields_encode_length (v : option Z) (fs : list Field.t) :
  length (encode_fields (rewrite_fields v fs)) = length (encode_fields fs).
Proof.
  rewrite !encode_fields_length. f_equal.
  unfold rewrite_fields. destruct v as [p|]; [|reflexivity].
  destruct (p =? CISCO_PEN); [apply cisco_rewrite_encode_length|].
  destruct (field_mappings_of p) as [tbl|] eqn:Htbl; [|reflexivity].
  rewrite map_map. apply map_ext. intros f. by apply apply_mapping_encode_length with p.
Qed.

Lemma process_records_frame (fuel : nat) (opt : bool) (st : store) (body : list byte)
    (st' : store) (body' : list byte) (ok : bool) :
  process_records fuel opt st body = (st', body', ok) ->
  length body' = length body /\
  records_rel (records_view fuel opt body) (records_view fuel opt body').
Proof.
  revert st body st' body' ok.
  induction fuel as [|fuel IH]; intros st body st' body' ok H.
  { simpl in H. injection H as <- <- <-. split; [reflexivity | apply records_rel_refl]. }
  destruct body as [|b0 [|b1 [|b2 [|b3 tl]]]];
    try (simpl in H; injection H as <- <- <-; split; [reflexivity | apply records_rel_refl]).
  cbn [process_records] in H.
  destruct (get16 b2 b3 =? 0) eqn:Hc.
  - destruct (process_records fuel opt (templ_stats_del (get16 b0 b1) st) tl)
      as [[st1 tl'] ok1] eqn:Hr.
    injection H as <- <- <-.
    destruct (IH _ _ _ _ _ Hr) as [Hlen [Hrel Htail]].
    split; [simpl; lia|].
    cbn [records_view]. rewrite Hc.
    destruct (records_view fuel opt tl) as [rvs tail].
    destruct (records_view fuel opt tl') as [rvs' tail'].
    split; [constructor; [apply rec_rel_refl | exact Hrel] | exact Htail].
  - destruct (take_scope opt tl) as [[sc tl2]|] eqn:Hsc;
      [| injection H as <- <- <-; split; [reflexivity | apply records_rel_refl]].
    destruct (parse_fields (Z.to_nat (get16 b2 b3)) tl2) as [[fs rest]|] eqn:Hp;
      [| injection H as <- <- <-; split; [reflexivity | apply records_rel_refl]].
    rewrite template_rewrite_spec in H.
    set (v := recognize (map ident fs)) in H.
    destruct (process_records fuel opt (templ_stats_put (get16 b0 b1) v st) rest)
      as [[st1 rest'] ok1] eqn:Hr.
    injection H as <- <- <-.
    destruct (IH _ _ _ _ _ Hr) as [Hlen [Hrel Htail]].
    destruct (take_scope_inv _ _ _ _ Hsc) as [Htl Hsc'].
    pose proof Hp as Hp'. apply parse_fields_inv in Hp' as (Htl2 & Hwf & Hn).
    split.
    { subst tl tl2. simpl. rewrite !length_app, rewrite_fields_encode_length. lia. }
    cbn [records_view]. rewrite Hc, Hsc, Hp, Hsc'.
    rewrite (reparse_rewritten _ _ _ _ v rest' Hp).
    destruct (records_view fuel opt rest) as [rvs tail].
    destruct (records_view fuel opt rest') as [rvs' tail'].
    split; [|exact Htail]. constructor; [|exact Hrel].
    unfold rec_rel. cbn [rv_tid rv_fields rv_bytes].
    split; [reflexivity|]. split; [apply rewrite_fields_lengths|].
    intros Hnone. fold v in Hnone. subst tl tl2.
    rewrite Hnone. cbn [rewrite_fields].
    rewrite !app_assoc, !app_comm_cons, !firstn_prefix. reflexivity.
Qed.

Lemma set_rel_refl (s : Z * list byte) : set_rel s s.
Proof. unfold set_rel. repeat split; auto using records_rel_refl; apply Forall2_diag, rec_rel_refl. Qed.

Lemma sets_rel_refl (v : list (Z * list byte) * list byte) : sets_rel v v.
Proof. split; [apply Forall2_diag, set_rel_refl | reflexivity]. Qed.

(** The view of a set whose body and rest were replaced by lists of the
    same lengths. *)
Lemma sets_view_step (fuel : nat) (b0 b1 b2 b3 : byte) (tl body' rest' : list byte) :
  ((Z.to_nat (get16 b2 b3) <? 4)%nat || (length tl <? Z.to_nat (get16 b2 b3) - 4)%nat) = false ->
  length body' = (Z.to_nat (get16 b2 b3) - 4)%nat ->
  length (body' ++ rest') = length tl ->
  sets_view (S fuel) (b0 :: b1 :: b2 :: b3 :: body' ++ rest') =
    let '(svs, tail) := sets_view fuel rest' in ((get16 b0 b1, body') :: svs, tail).
Proof.
  intros Hok Hb Heq.
  cbn [sets_view]. rewrite Heq, Hok.
  rewrite firstn_app_exact, skipn_app_exact by lia. reflexivity.
Qed.

Lemma process_sets_frame (fuel : nat) (st : store) (bs : list byte)
    (st' : store) (bs' : list byte) :
  process_sets fuel st bs = (st', bs') ->
  length bs' = length bs /\ sets_rel (sets_view fuel bs) (sets_view fuel bs').
Proof.
  revert st bs st' bs'.
  induction fuel as [|fuel IH]; intros st bs st' bs' H.
  { simpl in H. injection H as <- <-. split; [reflexivity | apply sets_rel_refl]. }
  destruct bs as [|b0 [|b1 [|b2 [|b3 tl]]]];
    try (simpl in H; injection H as <- <-; split; [reflexivity | apply sets_rel_refl]).
  cbn [process_sets] in H.
  set (len := Z.to_nat (get16 b2 b3)) in H.
  destruct ((len <? 4)%nat || (length tl <? len - 4)%nat) eqn:Hbad.
  { injection H as <- <-. split; [reflexivity | apply sets_rel_refl]. }
  assert (Hlt : (len - 4 <= length tl)%nat).
  { apply orb_false_iff in Hbad as [_ Hbad]. apply Nat.ltb_ge in Hbad. exact Hbad. }
  set (body := firstn (len - 4) tl) in H.
  set (rest := skipn (len - 4) tl) in H.
  assert (Hbody : length body = (len - 4)%nat) by (unfold body; rewrite length_firstn; lia).
  assert (Htl : tl = body ++ rest) by (symmetry; apply firstn_skipn).
  assert (Hin : sets_view (S fuel) (b0 :: b1 :: b2 :: b3 :: tl) =
            let '(svs, tail) := sets_view fuel rest in ((get16 b0 b1, body) :: svs, tail)).
  { cbn [sets_view]. fold len. rewrite Hbad. reflexivity. }
  destruct (is_template_set (get16 b0 b1)) eqn:Htpl.
  - destruct (process_records (length body) (get16 b0 b1 =? OPT_TEMPL_SET_ID) st body)
      as [[st1 body'] ok] eqn:Hr.
    destruct (process_records_frame _ _ _ _ _ _ _ Hr) as [Hlb Hrr].
    assert (Hsr : set_rel (get16 b0 b1, body) (get16 b0 b1, body')).
    { unfold set_rel, set_records. cbn [fst snd]. rewrite Hlb, Htpl.
      split; [reflexivity|]. split; [reflexivity|].
      split; [intros Hf; discriminate Hf | intros _; exact Hrr]. }
    destruct ok.
    + destruct (process_sets fuel st1 rest) as [st2 rest'] eqn:Hs.
      injection H as <- <-.
      destruct (IH _ _ _ _ Hs) as [Hlr Hsrel].
      assert (Hl : length (body' ++ rest') = length tl) by (rewrite Htl, !length_app; lia).
      split; [simpl; lia|].
      rewrite Hin, (sets_view_step fuel b0 b1 b2 b3 tl body' rest' Hbad) by lia.
      destruct (sets_view fuel rest) as [svs tail], (sets_view fuel rest') as [svs' tail'].
      destruct Hsrel as [Hf Ht]. split; [constructor; assumption | exact Ht].
    + injection H as <- <-.
      assert (Hl : length (body' ++ rest) = length tl) by (rewrite Htl, !length_app; lia).
      split; [simpl; lia|].
      rewrite Hin, (sets_view_step fuel b0 b1 b2 b3 tl body' rest Hbad) by lia.
      destruct (sets_view fuel rest) as [svs tail].
      split; [constructor; [exact Hsr | apply Forall2_diag, set_rel_refl] | reflexivity].
  - destruct (process_sets fuel st rest) as [st2 rest'] eqn:Hs.
    injection H as <- <-.
    destruct (IH _ _ _ _ Hs) as [Hlr Hsrel].
    assert (Hl : length (body ++ rest') = length tl) by (rewrite Htl, !length_app; lia).
    split; [simpl; lia|].
    rewrite Hin, (sets_view_step fuel b0 b1 b2 b3 tl body rest' Hbad) by lia.
    destruct (sets_view fuel rest) as [svs tail], (sets_view fuel rest') as [svs' tail'].
    destruct Hsrel as [Hf Ht]. split; [constructor; [apply set_rel_refl | exact Hf] | exact Ht].
Qed.

(** ** The recognizer and the Cisco rewrite *)

Lemma count_entity_app (e : ipfix_entity) (l1 l2 : list ipfix_entity) :
  count_entity e (l1 ++ l2) = (count_entity e l1 + count_entity e l2)%nat.
Proof. unfold count_entity. by rewrite List.filter_app, length_app. Qed.

Lemma count_entity_cons (e a : ipfix_entity) (l : list ipfix_entity) :
  count_entity e (a :: l) = ((if entity_eqb e a then 1 else 0) + count_entity e l)%nat.
Proof. unfold count_entity. simpl. by destruct (entity_eqb e a). Qed.

Lemma count_entity_none (e : ipfix_entity) (fs : list Field.t) :
  Forall (fun f => ident f <> e) fs -> count_entity e (map ident fs) = 0%nat.
Proof.
  induction fs as [|f fs IH]; intros H; [reflexivity|].
  inversion H as [|? ? Hf Hfs]; subst. simpl map. rewrite count_entity_cons, IH by exact Hfs.
  destruct (entity_eqb e (ident f)) eqn:E; [|reflexivity].
  apply entity_eqb_eq in E. congruence.
Qed.

Lemma count_entity_self (e : ipfix_entity) : entity_eqb e e = true.
Proof. by apply entity_eqb_eq. Qed.

(** A template with at least four fields of the Cisco identity is Cisco's. *)
Lemma recognize_cisco (fs : list Field.t) :
  (4 <= count_entity ciscoHttpUrl (map ident fs))%nat -> recognize (map ident fs) = Some CISCO_PEN.
Proof.
  intros H. unfold recognize. cbn [recognize_in vendor_signatures].
  replace (sig_matches cisco_fields (map ident fs)) with true; [reflexivity|].
  symmetry. unfold sig_matches. cbn [forallb cisco_fields].
  assert (Hc : count_entity ciscoHttpUrl cisco_fields = 4%nat) by reflexivity.
  unfold ciscoHttpHost, ciscoHttpUserAgent, ciscoHttpUnknown.
  fold ciscoHttpUrl. rewrite Hc. apply Nat.leb_le in H. rewrite H. reflexivity.
Qed.

Lemma cisco_rewrite_skip (k : nat) (l1 l2 : list Field.t) :
  Forall (fun f => ident f <> ciscoHttpUrl) l1 ->
  cisco_rewrite k (l1 ++ l2) = l1 ++ cisco_rewrite k l2.
Proof.
  induction l1 as [|f l1 IH]; intros H; [reflexivity|].
  inversion H as [|? ? Hf Hl1]; subst. simpl.
  destruct (entity_eqb (ident f) ciscoHttpUrl) eqn:E.
  - apply entity_eqb_eq in E. contradiction.
  - by rewrite IH.
Qed.

Lemma cisco_rewrite_hit (k : nat) (c : Field.t) (l : list Field.t) :
  ident c = ciscoHttpUrl ->
  cisco_rewrite k (c :: l) =
    match cisco_target k with Some t => retarget c t | None => c end :: cisco_rewrite (S k) l.
Proof. intros H. simpl. by rewrite H, count_entity_self. Qed.

Lemma cisco_rewrite_late (k : nat) (l : list Field.t) :
  (3 <= k)%nat -> cisco_rewrite k l = l.
Proof.
  revert k. induction l as [|f l IH]; intros k Hk; [reflexivity|]. simpl.
  destruct (entity_eqb (ident f) ciscoHttpUrl).
  - destruct k as [|[|[|k]]]; try lia. simpl. f_equal. apply IH. lia.
  - f_equal. by apply IH.
Qed.

(** ** Enterprise-specific field specifiers *)

(** A well-formed enterprise-specific element id is its IE id with the
    enterprise bit set. *)
Lemma wf_enterprise_id (f : Field.t) (p : Z) :
  wf_field f -> Field.enterprise_number f = Some p ->
  Field.element_id f = Z.lor (Z.land (Field.element_id f) 0x7FFF) ENTERPRISE_BIT.
Proof.
  unfold wf_field. intros (Hi & _ & He) Hp. rewrite Hp in He. destruct He as [Hb _].
  set (x := Field.element_id f) in *. clearbody x.
  apply Z.bits_inj'. intros n Hn.
  rewrite Z.lor_spec, Z.land_spec.
  change 0x7FFF with (Z.ones 15). change ENTERPRISE_BIT with (2 ^ 15).
  rewrite Z.testbit_ones_nonneg, Z.pow2_bits_eqb by lia.
  destruct (Z.lt_ge_cases n 15) as [Hlt|Hge].
  - replace (n <? 15) with true by (symmetry; apply Z.ltb_lt; lia).
    replace (15 =? n) with false by (symmetry; apply Z.eqb_neq; lia).
    by rewrite andb_true_r, orb_false_r.
  - replace (n <? 15) with false by (symmetry; apply Z.ltb_ge; lia).
    rewrite andb_false_r, orb_false_l.
    destruct (Z.eq_dec n 15) as [->|Hne]; [by rewrite Hb|].
    replace (15 =? n) with false by (symmetry; apply Z.eqb_neq; lia).
    destruct (Z.eq_dec x 0) as [->|Hx0]; [apply Z.testbit_0_l|].
    apply Z.bits_above_log2; [lia|].
    assert (Z.log2 x < 16) by (apply Z.log2_lt_pow2; lia). lia.
Qed.

Lemma retarget_own_ident (f : Field.t) (p : Z) :
  wf_field f -> Field.enterprise_number f = Some p -> retarget f (ident f) = f.
Proof.
  intros Hwf Hp. pose proof (wf_enterprise_id f p Hwf Hp) as Hid.
  destruct f as [i l e]. unfold retarget, ident. cbn in *. subst e.
  by rewrite <- Hid.
Qed.

(** ** The template statistics store *)

Lemma store_ok_put (tid : Z) (v : option Z) (st : store) :
  0 <= tid < 65536 -> store_ok st -> store_ok (templ_stats_put tid v st).
Proof.
  intros Hr Hok k e Hk. unfold templ_stats_put in Hk.
  destruct (decide (k = tid)) as [->|Hne].
  - rewrite lookup_insert_eq in Hk. injection Hk as <-. auto.
  - rewrite lookup_insert_ne in Hk by congruence. auto.
Qed.

Lemma store_ok_del (tid : Z) (st : store) : store_ok st -> store_ok (templ_stats_del tid st).
Proof.
  intros Hok k e Hk. unfold templ_stats_del in Hk.
  destruct (decide (k = tid)) as [->|Hne].
  - by rewrite lookup_delete_eq in Hk.
  - rewrite lookup_delete_ne in Hk by congruence. auto.
Qed.

Lemma process_records_store_ok (fuel : nat) (opt : bool) (st : store) (body : list byte) :
  store_ok st -> store_ok (fst (fst (process_records fuel opt st body))).
Proof.
  revert st body. induction fuel as [|fuel IH]; intros st body Hok; [exact Hok|].
  destruct body as [|b0 [|b1 [|b2 [|b3 tl]]]]; try exact Hok.
  cbn [process_records].
  destruct (get16 b2 b3 =? 0).
  - specialize (IH (templ_stats_del (get16 b0 b1) st) tl (store_ok_del _ _ Hok)).
    destruct (process_records fuel opt _ tl) as [[st1 tl'] ok1]. exact IH.
  - destruct (take_scope opt tl) as [[sc tl2]|]; [|exact Hok].
    destruct (parse_fields _ tl2) as [[fs rest]|]; [|exact Hok].
    destruct (template_rewrite fs) as [v fs'].
    specialize (IH (templ_stats_put (get16 b0 b1) v st) rest
                  (store_ok_put _ _ _ (get16_range b0 b1) Hok)).
    destruct (process_records fuel opt _ rest) as [[st1 rest'] ok1]. exact IH.
Qed.

Lemma process_sets_store_ok (fuel : nat) (st : store) (bs : list byte) :
  store_ok st -> store_ok (fst (process_sets fuel st bs)).
Proof.
  revert st bs. induction fuel as [|fuel IH]; intros st bs Hok; [exact Hok|].
  destruct bs as [|b0 [|b1 [|b2 [|b3 tl]]]]; try exact Hok.
  cbn [process_sets].
  destruct (_ || _); [exact Hok|].
  destruct (is_template_set (get16 b0 b1)).
  - pose proof (process_records_store_ok (length (firstn (Z.to_nat (get16 b2 b3) - 4) tl))
                  (get16 b0 b1 =? OPT_TEMPL_SET_ID) st (firstn (Z.to_nat (get16 b2 b3) - 4) tl) Hok)
      as Hr.
    destruct (process_records _ _ st _) as [[st1 body'] ok]. cbn [fst] in Hr.
    destruct ok; [|exact Hr].
    specialize (IH st1 (skipn (Z.to_nat (get16 b2 b3) - 4) tl) Hr).
    destruct (process_sets fuel st1 _) as [st2 rest']. exact IH.
  - specialize (IH st (skipn (Z.to_nat (get16 b2 b3) - 4) tl) Hok).
    destruct (process_sets fuel st _) as [st2 rest']. exact IH.
Qed.

(** The entry of an id that no template record of the body names is left
    as it is. *)
Lemma process_records_other (fuel : nat) (opt : bool) (st : store) (body : list byte) (k : Z) :
  existsb (fun r => rv_tid r =? k) (fst (records_view fuel opt body)) = false ->
  fst (fst (process_records fuel opt st body)) !! k = st !! k.
Proof.
  revert st body. induction fuel as [|fuel IH]; intros st body H; [reflexivity|].
  destruct body as [|b0 [|b1 [|b2 [|b3 tl]]]]; try reflexivity.
  cbn [process_records]. cbn [records_view] in H.
  destruct (get16 b2 b3 =? 0).
  - destruct (records_view fuel opt tl) as [rvs tail] eqn:Hv.
    cbn [fst existsb rv_tid] in H. apply orb_false_iff in H as [Hk Hrest].
    apply Z.eqb_neq in Hk.
    specialize (IH (templ_stats_del (get16 b0 b1) st) tl ltac:(rewrite Hv; exact Hrest)).
    destruct (process_records fuel opt _ tl) as [[st1 tl'] ok1]. cbn [fst] in IH |- *.
    rewrite IH. unfold templ_stats_del. by rewrite lookup_delete_ne.
  - destruct (take_scope opt tl) as [[sc tl2]|]; [|reflexivity].
    destruct (parse_fields _ tl2) as [[fs rest]|]; [|reflexivity].
    destruct (records_view fuel opt rest) as [rvs tail] eqn:Hv.
    cbn [fst existsb rv_tid] in H. apply orb_false_iff in H as [Hk Hrest].
    apply Z.eqb_neq in Hk.
    destruct (template_rewrite fs) as [v fs'].
    specialize (IH (templ_stats_put (get16 b0 b1) v st) rest ltac:(rewrite Hv; exact Hrest)).
    destruct (process_records fuel opt _ rest) as [[st1 rest'] ok1]. cbn [fst] in IH |- *.
    rewrite IH. unfold templ_stats_put. by rewrite lookup_insert_ne.
Qed.

Lemma process_sets_other (fuel : nat) (st : store) (bs : list byte) (k : Z) :
  existsb (fun s => is_template_set (fst s) &&
                    existsb (fun r => rv_tid r =? k) (fst (set_records s)))
          (fst (sets_view fuel bs)) = false ->
  fst (process_sets fuel st bs) !! k = st !! k.
Proof.
  revert st bs. induction fuel as [|fuel IH]; intros st bs H; [reflexivity|].
  destruct bs as [|b0 [|b1 [|b2 [|b3 tl]]]]; try reflexivity.
  cbn [process_sets]. cbn [sets_view] in H.
  destruct (_ || _); [reflexivity|].
  destruct (sets_view fuel (skipn (Z.to_nat (get16 b2 b3) - 4) tl)) as [svs tail] eqn:Hv.
  cbn [fst existsb] in H. apply orb_false_iff in H as [Hs Hrest].
  assert (IH' : forall st', fst (process_sets fuel st' (skipn (Z.to_nat (get16 b2 b3) - 4) tl)) !! k
                            = st' !! k) by (intros st'; apply IH; rewrite Hv; exact Hrest).
  clear IH. rename IH' into IH.
  cbn [fst] in Hs. destruct (is_template_set (get16 b0 b1)).
  - cbn [andb] in Hs. unfold set_records in Hs. cbn [fst snd] in Hs.
    pose proof (process_records_other (length (firstn (Z.to_nat (get16 b2 b3) - 4) tl))
                  (get16 b0 b1 =? OPT_TEMPL_SET_ID) st
                  (firstn (Z.to_nat (get16 b2 b3) - 4) tl) k Hs) as Hr.
    destruct (process_records _ _ st _) as [[st1 body'] ok]. cbn [fst] in Hr.
    destruct ok; [|exact Hr].
    specialize (IH st1).
    destruct (process_sets fuel st1 _) as [st2 rest']. cbn [fst] in IH |- *. congruence.
  - specialize (IH st).
    destruct (process_sets fuel st _) as [st2 rest']. exact IH.
Qed.

(** Sets without template records leave the store as it is. *)
Lemma process_sets_data_only (fuel : nat) (st : store) (bs : list byte) :
  Forall (fun s => is_template_set (fst s) = false) (fst (sets_view fuel bs)) ->
  fst (process_sets fuel st bs) = st.
Proof.
  revert st bs. induction fuel as [|fuel IH]; intros st bs H; [reflexivity|].
  destruct bs as [|b0 [|b1 [|b2 [|b3 tl]]]]; try reflexivity.
  cbn [process_sets]. cbn [sets_view] in H.
  destruct (_ || _); [reflexivity|].
  destruct (sets_view fuel (skipn (Z.to_nat (get16 b2 b3) - 4) tl)) as [svs tail] eqn:Hv.
  cbn [fst] in H. inversion H as [|? ? Hd Hrest]; subst. cbn [fst] in Hd. rewrite Hd.
  specialize (IH st (skipn (Z.to_nat (get16 b2 b3) - 4) tl)). rewrite Hv in IH.
  specialize (IH Hrest).
  destruct (process_sets fuel st _) as [st2 rest']. exact IH.
Qed.

(** ** Running the engine on its own output *)

Lemma entity_eqb_neq (a b : ipfix_entity) : a <> b -> entity_eqb a b = false.
Proof. intros H. destruct (entity_eqb a b) eqn:E; [apply entity_eqb_eq in E; congruence | reflexivity]. Qed.

Lemma ident_retarget_target (f : Field.t) (t : ipfix_entity) :
  In t targets -> ident (retarget f t) = t.
Proof. intros Ht. simpl in Ht. destruct Ht as [<-|[<-|[<-|[]]]]; reflexivity. Qed.

Lemma cisco_target_in (k : nat) (t : ipfix_entity) : cisco_target k = Some t -> In t targets.
Proof.
  destruct k as [|[|[|k]]]; simpl; intros H; try discriminate; injection H as <-; simpl; tauto.
Qed.

Lemma forallb_ext_on {A} (f g : A -> bool) (l : list A) :
  (forall x, In x l -> f x = g x) -> forallb f l = forallb g l.
Proof.
  induction l as [|a l IH]; intros H; [reflexivity|]. simpl.
  rewrite H by (left; reflexivity). f_equal. apply IH. intros x Hx. apply H. by right.
Qed.

Lemma sig_matches_ext (sig l1 l2 : list ipfix_entity) :
  (forall e, In e sig -> count_entity e l1 = count_entity e l2) ->
  sig_matches sig l1 = sig_matches sig l2.
Proof. intros H. unfold sig_matches. apply forallb_ext_on. intros e He. by rewrite H. Qed.

Lemma sig_matches_false (sig ids : list ipfix_entity) (e : ipfix_entity) :
  In e sig -> (count_entity e ids < count_entity e sig)%nat -> sig_matches sig ids = false.
Proof.
  intros He Hlt. unfold sig_matches.
  destruct (forallb _ sig) eqn:Hf; [|reflexivity].
  rewrite forallb_forall in Hf. specialize (Hf e He). apply Nat.leb_le in Hf. lia.
Qed.

Lemma count_apply_other (tbl : list field_mapping) (fs : list Field.t) (e : ipfix_entity) :
  Forall (fun m => In (map_to m) targets) tbl ->
  (forall m, In m tbl -> map_from m <> e /\ map_to m <> e) ->
  count_entity e (map ident (map (apply_mapping tbl) fs)) = count_entity e (map ident fs).
Proof.
  intros Ht He. induction fs as [|f fs IH]; [reflexivity|].
  cbn [map]. rewrite !count_entity_cons, IH. f_equal.
  unfold apply_mapping. destruct (find _ tbl) as [m|] eqn:Hfind; [|reflexivity].
  apply find_some in Hfind as [Hin Heq]. apply entity_eqb_eq in Heq.
  rewrite List.Forall_forall in Ht.
  rewrite ident_retarget_target by (apply Ht; exact Hin).
  destruct (He m Hin) as [Hf Hto].
  rewrite !entity_eqb_neq by congruence. reflexivity.
Qed.

Lemma count_apply_from (tbl : list field_mapping) (fs : list Field.t) (e : ipfix_entity) :
  Forall (fun m => In (map_to m) targets) tbl ->
  In e (map map_from tbl) -> (forall m, In m tbl -> map_to m <> e) ->
  count_entity e (map ident (map (apply_mapping tbl) fs)) = 0%nat.
Proof.
  intros Ht [m0 [Hm0 Hin0]]%in_map_iff Hto. rewrite map_map. rewrite List.Forall_forall in Ht.
  induction fs as [|f fs IH]; [reflexivity|].
  cbn [map]. rewrite count_entity_cons, IH. unfold apply_mapping.
  destruct (find _ tbl) as [m|] eqn:Hfind.
  - apply find_some in Hfind as [Hin _].
    rewrite ident_retarget_target by (apply Ht; exact Hin).
    rewrite entity_eqb_neq by (intros E; apply (Hto m Hin); congruence). reflexivity.
  - rewrite entity_eqb_neq; [reflexivity|]. intros E.
    pose proof (find_none _ _ Hfind m0 Hin0) as Hn. simpl in Hn.
    rewrite Hm0, E, count_entity_self in Hn. discriminate.
Qed.

Lemma count_cisco_rewrite_other (k : nat) (fs : list Field.t) (e : ipfix_entity) :
  e <> ciscoHttpUrl -> ~ In e targets ->
  count_entity e (map ident (cisco_rewrite k fs)) = count_entity e (map ident fs).
Proof.
  intros Hc Ht. revert k. induction fs as [|f fs IH]; intros k; [reflexivity|].
  cbn [cisco_rewrite]. destruct (entity_eqb (ident f) ciscoHttpUrl) eqn:Hf.
  - apply entity_eqb_eq in Hf. cbn [map]. rewrite !count_entity_cons, IH. f_equal.
    rewrite (entity_eqb_neq e (ident f)) by congruence.
    destruct (cisco_target k) as [t|] eqn:Hk; [|by rewrite Hf, entity_eqb_neq].
    apply cisco_target_in in Hk. rewrite ident_retarget_target by exact Hk.
    rewrite entity_eqb_neq; [reflexivity|]. intros ->. contradiction.
  - cbn [map]. by rewrite !count_entity_cons, IH.
Qed.

Lemma count_cisco_rewrite_self (k : nat) (fs : list Field.t) :
  (k <= 3)%nat ->
  (count_entity ciscoHttpUrl (map ident (cisco_rewrite k fs)) +
   Nat.min (count_entity ciscoHttpUrl (map ident fs)) (3 - k) =
   count_entity ciscoHttpUrl (map ident fs))%nat.
Proof.
  revert k. induction fs as [|f fs IH]; intros k Hk; [reflexivity|].
  destruct (Nat.eq_dec k 3%nat) as [->|Hk3].
  { rewrite cisco_rewrite_late by lia. lia. }
  cbn [cisco_rewrite]. destruct (entity_eqb (ident f) ciscoHttpUrl) eqn:Hf.
  - destruct (cisco_target k) as [t|] eqn:Ht;
      [|destruct k as [|[|[|k]]]; simpl in Ht; try discriminate; lia].
    apply cisco_target_in in Ht. cbn [map]. rewrite !count_entity_cons.
    rewrite ident_retarget_target by exact Ht.
    apply entity_eqb_eq in Hf. rewrite Hf, count_entity_self.
    rewrite entity_eqb_neq by (intros E; subst t; simpl in Ht;
                                destruct Ht as [Ht|[Ht|[Ht|[]]]]; discriminate Ht).
    specialize (IH (S k) ltac:(lia)). lia.
  - cbn [map]. rewrite !count_entity_cons.
    rewrite (entity_eqb_neq _ (ident f))
      by (intros E; rewrite E, count_entity_self in Hf; discriminate).
    specialize (IH k Hk). lia.
Qed.

Lemma rs_rewrite_identity (fs : list Field.t) :
  Forall wf_field fs -> rewrite_fields (Some RS_PEN) fs = fs.
Proof.
  intros Hwf. unfold rewrite_fields. cbn -[apply_mapping].
  induction fs as [|f fs IH]; [reflexivity|].
  inversion Hwf as [|? ? Hf Hfs]; subst. cbn [map]. rewrite IH by exact Hfs. f_equal.
  unfold apply_mapping.
  destruct (find _ rs_field_mappings) as [m|] eqn:Hfind; [|reflexivity].
  apply find_some in Hfind as [Hin Heq]. apply entity_eqb_eq in Heq.
  assert (Hself : map_to m = map_from m).
  { simpl in Hin. destruct Hin as [<-|[<-|[<-|[]]]]; reflexivity. }
  rewrite Hself, Heq.
  assert (Hp : pen (ident f) <> 0).
  { rewrite <- Heq. simpl in Hin. destruct Hin as [<-|[<-|[<-|[]]]]; discriminate. }
  destruct (ident_pen_enterprise f Hp) as [p Hsome].
  exact (retarget_own_ident f p Hf Hsome).
Qed.

Lemma recognize_in_some (sigs : list (Z * list ipfix_entity)) (ids : list ipfix_entity) (p : Z) :
  recognize_in sigs ids = Some p -> exists sig, In (p, sig) sigs /\ sig_matches sig ids = true.
Proof.
  induction sigs as [|[q sig] sigs IH]; [discriminate|]. simpl.
  destruct (sig_matches sig ids) eqn:Hm.
  - intros H. injection H as <-. eauto.
  - intros H. destruct (IH H) as [sig' [Hin Hm']]. eauto.
Qed.

Lemma recognize_in_rest (sigs : list (Z * list ipfix_entity)) (ids : list ipfix_entity) :
  (forall p sig, In (p, sig) sigs -> p <> RS_PEN -> sig_matches sig ids = false) ->
  recognize_in sigs ids = None \/ recognize_in sigs ids = Some RS_PEN.
Proof.
  induction sigs as [|[q sig] sigs IH]; intros H; [by left|]. simpl.
  destruct (sig_matches sig ids) eqn:Hm.
  - destruct (Z.eq_dec q RS_PEN) as [->|Hq]; [by right|].
    rewrite (H q sig) in Hm by (by left || exact Hq). discriminate.
  - apply IH. intros p sig' Hin Hp. apply (H p sig'); [by right | exact Hp].
Qed.

Lemma signature_pens_unique (p : Z) (sig sig' : list ipfix_entity) :
  In (p, sig) vendor_signatures -> In (p, sig') vendor_signatures -> sig = sig'.
Proof.
  intros H1 H2. simpl in H1, H2.
  destruct H1 as [H1|[H1|[H1|[H1|[H1|[H1|[]]]]]]];
  destruct H2 as [H2|[H2|[H2|[H2|[H2|[H2|[]]]]]]];
  injection H1 as E1 E2; injection H2 as E3 E4; subst; try reflexivity;
  cbv in E3; discriminate E3.
Qed.

(** Two distinct vendor signatures share no identity, and only the
    canonical one holds a canonical identity. *)
Lemma signatures_disjoint (p q : Z) (sig sig' : list ipfix_entity) (e : ipfix_entity) :
  In (p, sig) vendor_signatures -> In (q, sig') vendor_signatures ->
  p <> q -> q <> RS_PEN -> In e sig' -> ~ In e sig /\ ~ In e targets.
Proof.
  intros H1 H2 Hpq Hq He. simpl in H1, H2.
  destruct H1 as [H1|[H1|[H1|[H1|[H1|[H1|[]]]]]]];
  destruct H2 as [H2|[H2|[H2|[H2|[H2|[H2|[]]]]]]];
  injection H1 as <- <-; injection H2 as <- <-;
  try (exfalso; apply Hpq; reflexivity); try (exfalso; apply Hq; reflexivity);
  simpl in He; repeat destruct He as [<-|He]; try contradiction;
  cbv; split; intros H; repeat destruct H as [H|H]; try discriminate H; exact H.
Qed.

Lemma at_most_one {A} (l : list A) (x y : A) :
  (length l <= 1)%nat -> In x l -> In y l -> x = y.
Proof.
  destruct l as [|a [|b l]]; simpl; intros Hl Hx Hy; try lia; try contradiction.
  destruct Hx as [<-|[]]; destruct Hy as [<-|[]]; reflexivity.
Qed.

Lemma settles_unique (ids : list ipfix_entity) (p q : Z) (sig sig' : list ipfix_entity) :
  rewrite_settles ids = true ->
  In (p, sig) vendor_signatures -> In (q, sig') vendor_signatures ->
  p <> RS_PEN -> q <> RS_PEN ->
  sig_matches sig ids = true -> sig_matches sig' ids = true -> p = q.
Proof.
  intros Hs H1 H2 Hp Hq Hm1 Hm2.
  apply andb_true_iff in Hs as [Hl _]. apply Nat.leb_le in Hl.
  assert (Hin : forall r s, In (r, s) vendor_signatures -> r <> RS_PEN ->
                  sig_matches s ids = true -> In r (vendor_matches ids)).
  { intros r s Hr Hrs Hms. unfold vendor_matches. apply in_map_iff.
    exists (r, s). split; [reflexivity|]. apply List.filter_In. split; [exact Hr|].
    cbn [fst snd]. rewrite Hms. apply Z.eqb_neq in Hrs. by rewrite Hrs. }
  exact (at_most_one _ p q Hl (Hin _ _ H1 Hp Hm1) (Hin _ _ H2 Hq Hm2)).
Qed.

(** A vendor signature's identities, and the canonical ones, are the
    only identities the vendor's rewrite changes the count of. *)
Lemma count_rewrite_outside (p : Z) (sig : list ipfix_entity) (fs : list Field.t) (e : ipfix_entity) :
  In (p, sig) vendor_signatures -> p <> RS_PEN -> ~ In e sig -> ~ In e targets ->
  count_entity e (map ident (rewrite_fields (Some p) fs)) = count_entity e (map ident fs).
Proof.
  intros Hin Hp Hs Ht. simpl in Hin.
  destruct Hin as [H|[H|[H|[H|[H|[H|[]]]]]]]; injection H as <- <-;
    try (exfalso; apply Hp; reflexivity).
  1: { apply count_cisco_rewrite_other; [intros ->; apply Hs; simpl; tauto | exact Ht]. }
  all: cbn -[apply_mapping map targets];
      (apply count_apply_other;
       [repeat (apply List.Forall_cons; [simpl; tauto|]); apply List.Forall_nil
       | intros m Hm; simpl in Hm; repeat destruct Hm as [<-|Hm]; try contradiction;
         simpl; (split; intros <-; [apply Hs | apply Ht]; simpl; tauto)]).
Qed.

(** After the matched vendor's rewrite, its signature no longer matches. *)
Lemma count_rewrite_drop (p : Z) (sig : list ipfix_entity) (fs : list Field.t) :
  In (p, sig) vendor_signatures -> p <> RS_PEN ->
  (count_entity ciscoHttpUrl (map ident fs) < 7)%nat ->
  sig_matches sig (map ident (rewrite_fields (Some p) fs)) = false.
Proof.
  intros Hin Hp Hc. simpl in Hin.
  destruct Hin as [H|[H|[H|[H|[H|[H|[]]]]]]]; injection H as <- <-;
    try (exfalso; apply Hp; reflexivity).
  1: { apply sig_matches_false with ciscoHttpUrl; [simpl; tauto|].
    cbn [rewrite_fields]. rewrite Z.eqb_refl.
    pose proof (count_cisco_rewrite_self 0 fs ltac:(lia)) as H.
    change (count_entity ciscoHttpUrl cisco_fields) with 4%nat. lia. }
  all: cbv delta [invea_fields masaryk_fields ntop_fields ntopv9_fields];
    match goal with |- sig_matches (?e :: _) _ = false =>
           apply sig_matches_false with e; [simpl; tauto|] end;
      cbn -[apply_mapping map targets count_entity];
      (rewrite count_apply_from;
       [ cbv; lia
       | repeat (apply List.Forall_cons; [simpl; tauto|]); apply List.Forall_nil
       | simpl; tauto
       | intros m Hm; simpl in Hm; repeat destruct Hm as [<-|Hm]; try contradiction;
         cbv; discriminate ]).
Qed.

(** A template record that settles is a fixed point after one rewrite. *)
Lemma rewrite_settled (fs : list Field.t) :
  Forall wf_field fs -> rewrite_settles (map ident fs) = true ->
  let fs' := rewrite_fields (recognize (map ident fs)) fs in
  rewrite_fields (recognize (map ident fs')) fs' = fs'.
Proof.
  intros Hwf Hs. cbv zeta.
  destruct (recognize (map ident fs)) as [p|] eqn:Hr.
  2: { cbn [rewrite_fields]. rewrite Hr. reflexivity. }
  assert (Hwf' : Forall wf_field (rewrite_fields (Some p) fs)) by (apply rewrite_fields_wf, Hwf).
  destruct (Z.eq_dec p RS_PEN) as [->|Hp].
  { rewrite rs_rewrite_identity by exact Hwf. rewrite Hr.
    by apply rs_rewrite_identity. }
  destruct (recognize_in_some _ _ _ Hr) as [sig [Hin Hm]].
  assert (Hall : forall q sig', In (q, sig') vendor_signatures -> q <> RS_PEN ->
                   sig_matches sig' (map ident (rewrite_fields (Some p) fs)) = false).
  { intros q sig' Hq Hqr. destruct (Z.eq_dec q p) as [->|Hqp].
    - rewrite <- (signature_pens_unique p sig sig' Hin Hq).
      apply count_rewrite_drop; [exact Hin | exact Hp |].
      apply andb_true_iff in Hs as [_ Hc]. by apply Nat.ltb_lt.
    - rewrite (sig_matches_ext sig' _ (map ident fs)).
      + destruct (sig_matches sig' (map ident fs)) eqn:Hm'; [|reflexivity].
        exfalso. apply Hqp. symmetry.
        exact (settles_unique _ p q sig sig' Hs Hin Hq Hp Hqr Hm Hm').
      + intros e He.
        destruct (signatures_disjoint p q sig sig' e Hin Hq (not_eq_sym Hqp) Hqr He) as [H1 H2].
        exact (count_rewrite_outside p sig fs e Hin Hp H1 H2). }
  destruct (recognize_in_rest vendor_signatures _ Hall) as [H|H];
    unfold recognize; rewrite H; [reflexivity|].
  apply rs_rewrite_identity. exact Hwf'.
Qed.

Lemma process_records_settled (fuel : nat) (opt : bool) (st st' : store) (body : list byte)
    (st1 : store) (body' : list byte) (ok : bool) :
  forallb (fun r => rewrite_settles (map ident (rv_fields r))) (fst (records_view fuel opt body)) = true ->
  process_records fuel opt st body = (st1, body', ok) ->
  exists st2, process_records fuel opt st' body' = (st2, body', ok).
Proof.
  revert st st' body st1 body' ok.
  induction fuel as [|fuel IH]; intros st st' body st1 body' ok Hset H.
  { simpl in H. injection H as <- <- <-. by exists st'. }
  destruct body as [|b0 [|b1 [|b2 [|b3 tl]]]];
    try (simpl in H; injection H as <- <- <-; by exists st').
  cbn [process_records] in H. cbn [records_view] in Hset.
  destruct (get16 b2 b3 =? 0) eqn:Hc.
  - destruct (process_records fuel opt (templ_stats_del (get16 b0 b1) st) tl)
      as [[st3 tl'] ok1] eqn:Hr.
    injection H as <- <- <-.
    destruct (records_view fuel opt tl) as [rvs tail] eqn:Hv.
    cbn [fst forallb] in Hset. apply andb_true_iff in Hset as [_ Hset].
    destruct (IH _ (templ_stats_del (get16 b0 b1) st') tl _ _ _ ltac:(rewrite Hv; exact Hset) Hr)
      as [st2 H2].
    exists st2. cbn [process_records]. by rewrite Hc, H2.
  - destruct (take_scope opt tl) as [[sc tl2]|] eqn:Hsc.
    2: { injection H as <- <- <-. exists st'. cbn [process_records]. by rewrite Hc, Hsc. }
    destruct (parse_fields (Z.to_nat (get16 b2 b3)) tl2) as [[fs rest]|] eqn:Hp.
    2: { injection H as <- <- <-. exists st'. cbn [process_records]. by rewrite Hc, Hsc, Hp. }
    rewrite template_rewrite_spec in H.
    set (v := recognize (map ident fs)) in H.
    destruct (process_records fuel opt (templ_stats_put (get16 b0 b1) v st) rest)
      as [[st3 rest'] ok1] eqn:Hr.
    injection H as <- <- <-.
    destruct (records_view fuel opt rest) as [rvs tail] eqn:Hv.
    cbn [fst forallb rv_fields] in Hset. apply andb_true_iff in Hset as [Hs Hset].
    destruct (take_scope_inv _ _ _ _ Hsc) as [_ Hsc'].
    pose proof Hp as Hp'. apply parse_fields_inv in Hp' as (_ & Hwf & _).
    pose proof (rewrite_settled fs Hwf Hs) as Hfix. cbv zeta in Hfix. fold v in Hfix.
    destruct (IH _ (templ_stats_put (get16 b0 b1) (recognize (map ident (rewrite_fields v fs))) st')
                 rest _ _ _ ltac:(rewrite Hv; exact Hset) Hr) as [st2 H2].
    exists st2. cbn [process_records]. rewrite Hc, Hsc'.
    rewrite (reparse_rewritten _ _ _ _ v rest' Hp).
    rewrite template_rewrite_spec, Hfix, H2. reflexivity.
Qed.

Lemma process_sets_settled (fuel : nat) (st st' : store) (bs : list byte)
    (st1 : store) (bs' : list byte) :
  forallb (fun s => negb (is_template_set (fst s)) ||
                    forallb (fun r => rewrite_settles (map ident (rv_fields r)))
                            (fst (set_records s)))
          (fst (sets_view fuel bs)) = true ->
  process_sets fuel st bs = (st1, bs') ->
  exists st2, process_sets fuel st' bs' = (st2, bs').
Proof.
  revert st st' bs st1 bs'.
  induction fuel as [|fuel IH]; intros st st' bs st1 bs' Hset H.
  { simpl in H. injection H as <- <-. by exists st'. }
  destruct bs as [|b0 [|b1 [|b2 [|b3 tl]]]];
    try (simpl in H; injection H as <- <-; by exists st').
  cbn [process_sets] in H. cbn [sets_view] in Hset.
  set (len := Z.to_nat (get16 b2 b3)) in H, Hset.
  destruct ((len <? 4)%nat || (length tl <? len - 4)%nat) eqn:Hbad.
  { injection H as <- <-. exists st'. cbn [process_sets]. fold len. by rewrite Hbad. }
  assert (Hlt : (len - 4 <= length tl)%nat).
  { apply orb_false_iff in Hbad as [_ Hbad]. apply Nat.ltb_ge in Hbad. exact Hbad. }
  set (body := firstn (len - 4) tl) in H, Hset.
  set (rest := skipn (len - 4) tl) in H, Hset.
  assert (Hbody : length body = (len - 4)%nat) by (unfold body; rewrite length_firstn; lia).
  assert (Htl : tl = body ++ rest) by (symmetry; apply firstn_skipn).
  destruct (sets_view fuel rest) as [svs tail] eqn:Hv.
  cbn [fst forallb] in Hset. apply andb_true_iff in Hset as [Hs Hset].
  assert (Hstep : forall body2 rest2 : list byte, length body2 = length body ->
            length (body2 ++ rest2) = length tl ->
            (((len <? 4)%nat || (length (body2 ++ rest2) <? len - 4)%nat) = false) /\
            firstn (len - 4) (body2 ++ rest2) = body2 /\ skipn (len - 4) (body2 ++ rest2) = rest2).
  { intros body2 rest2 Hb2 Hl2. rewrite Hl2. split; [exact Hbad|].
    split; [apply firstn_app_exact | apply skipn_app_exact]; lia. }
  destruct (is_template_set (get16 b0 b1)) eqn:Htpl.
  - cbn [fst snd negb orb] in Hs. unfold set_records in Hs.
    cbn [fst snd] in Hs.
    destruct (process_records (length body) (get16 b0 b1 =? OPT_TEMPL_SET_ID) st body)
      as [[st3 body'] ok] eqn:Hr.
    destruct (process_records_frame _ _ _ _ _ _ _ Hr) as [Hlb _].
    destruct (process_records_settled _ _ _ st' _ _ _ _ Hs Hr) as [st4 Hr2].
    rewrite <- Hlb in Hr2.
    destruct ok.
    + destruct (process_sets fuel st3 rest) as [st5 rest'] eqn:Hs2.
      injection H as <- <-.
      destruct (process_sets_frame _ _ _ _ _ Hs2) as [Hlr _].
      destruct (IH _ st4 rest _ _ ltac:(rewrite Hv; exact Hset) Hs2) as [st6 H6].
      destruct (Hstep body' rest' Hlb ltac:(rewrite Htl, !length_app; lia)) as (Hb & Hf & Hk).
      exists st6. cbn [process_sets]. fold len. rewrite Hb, Hf, Hk, Htpl, Hr2, H6. reflexivity.
    + injection H as <- <-.
      destruct (Hstep body' rest Hlb ltac:(rewrite Htl, !length_app; lia)) as (Hb & Hf & Hk).
      exists st4. cbn [process_sets]. fold len. rewrite Hb, Hf, Hk, Htpl, Hr2. reflexivity.
  - destruct (process_sets fuel st rest) as [st5 rest'] eqn:Hs2.
    injection H as <- <-.
    destruct (process_sets_frame _ _ _ _ _ Hs2) as [Hlr _].
    destruct (IH _ st' rest _ _ ltac:(rewrite Hv; exact Hset) Hs2) as [st6 H6].
    destruct (Hstep body rest' eq_refl ltac:(rewrite Htl, !length_app; lia)) as (Hb & Hf & Hk).
    exists st6. cbn [process_sets]. fold len. rewrite Hb, Hf, Hk, Htpl, H6. reflexivity.
Qed.

(* ================================================================== *)
(** * Claims *)

(** C2: for every input message, processing keeps the message length and
    header, every set keeps its set id and length, every data set (set id
    other than 2 and 3) keeps its bytes, the bytes the walker could not
    parse are kept, and within template and options template sets every
    template record keeps its template id and field lengths, and a record
    of no recognized vendor encoding keeps its bytes. *)
Theorem process_message_frame (conf : httpfieldmerge_config) (msg : list byte) :
  let out := snd (process_message conf msg) in
  length out = length msg /\
  firstn IPFIX_HEADER_LEN out = firstn IPFIX_HEADER_LEN msg /\
  sets_rel (message_sets msg) (message_sets out).
Proof.
  unfold process_message.
  destruct (length msg <? IPFIX_HEADER_LEN)%nat eqn:Hshort.
  { simpl. split; [reflexivity | split; [reflexivity | apply sets_rel_refl]]. }
  apply Nat.ltb_ge in Hshort.
  destruct (process_sets (length (skipn IPFIX_HEADER_LEN msg)) (templ_stats conf)
              (skipn IPFIX_HEADER_LEN msg)) as [st' sets'] eqn:Hp.
  destruct (process_sets_frame _ _ _ _ _ Hp) as [Hlen Hrel].
  cbn [snd].
  assert (Hh : length (firstn IPFIX_HEADER_LEN msg) = IPFIX_HEADER_LEN)
    by (rewrite length_firstn; lia).
  split; [| split].
  - rewrite length_app, Hlen, Hh, length_skipn. lia.
  - apply firstn_app_exact. symmetry. exact Hh.
  - unfold message_sets. rewrite skipn_app_exact by (symmetry; exact Hh).
    rewrite Hlen. exact Hrel.
Qed.

(** C1: a template record whose fields are, in order, INVEA-TECH's
    hostname (length 4), URL (variable) and user agent (variable) is
    recognized as INVEA-TECH's encoding and rewritten to the canonical
    identities (44913,20), (44913,21), (44913,22), with the same field
    lengths; for every template id and every configuration. *)
Theorem invea_template_rewritten (conf : httpfieldmerge_config) (tid : Z) :
  snd (process_message conf
         (template_message tid [(inveaHttpHost, 4); (inveaHttpUrl, VAR_LEN);
                                (inveaHttpUserAgent, VAR_LEN)])) =
  template_message tid [(mk_entity 44913 20, 4); (mk_entity 44913 21, VAR_LEN);
                        (mk_entity 44913 22, VAR_LEN)].
Proof.
  unfold template_message.
  change (put16 tid) with [byte_of_Z (tid / 256); byte_of_Z tid].
  generalize (byte_of_Z (tid / 256)) (byte_of_Z tid). intros t0 t1.
  vm_compute. reflexivity.
Qed.

(** C4: in a template with exactly four fields of the shared Cisco
    identity e9id12235 (other fields arbitrary), the first occurrence is
    rewritten to the canonical URL identity, the second to the canonical
    hostname identity, the third to the canonical user-agent identity, and
    the fourth is left unmodified; all other fields are left unmodified. *)
Theorem cisco_four_occurrences (pre m1 m2 m3 post : list Field.t) (c1 c2 c3 c4 : Field.t) :
  Forall (fun f => ident f <> ciscoHttpUrl) (pre ++ m1 ++ m2 ++ m3 ++ post) ->
  ident c1 = ciscoHttpUrl -> ident c2 = ciscoHttpUrl ->
  ident c3 = ciscoHttpUrl -> ident c4 = ciscoHttpUrl ->
  template_rewrite (pre ++ c1 :: m1 ++ c2 :: m2 ++ c3 :: m3 ++ c4 :: post) =
  (Some CISCO_PEN,
   pre ++ retarget c1 targetHttpUrl :: m1 ++ retarget c2 targetHttpHost :: m2 ++
   retarget c3 targetHttpUserAgent :: m3 ++ c4 :: post).
Proof.
  intros Hother H1 H2 H3 H4.
  rewrite !Forall_app in Hother. destruct Hother as (Hpre & Hm1 & Hm2 & Hm3 & Hpost).
  rewrite template_rewrite_spec.
  rewrite recognize_cisco.
  2:{ repeat ((rewrite map_app) || (progress cbn [map])).
      repeat ((rewrite count_entity_app) || (rewrite count_entity_cons)).
      rewrite H1, H2, H3, H4, count_entity_self.
      rewrite !count_entity_none by assumption. lia. }
  f_equal. unfold rewrite_fields. rewrite Z.eqb_refl.
  rewrite cisco_rewrite_skip, cisco_rewrite_hit by assumption. f_equal. f_equal.
  rewrite cisco_rewrite_skip, cisco_rewrite_hit by assumption. f_equal. f_equal.
  rewrite cisco_rewrite_skip, cisco_rewrite_hit by assumption. f_equal. f_equal.
  rewrite cisco_rewrite_skip, cisco_rewrite_hit by assumption. f_equal. f_equal.
  apply cisco_rewrite_late. lia.
Qed.

(** C5 (amended): for the positionally disambiguated vendor (at least four
    fields of e9id12235), the first occurrence is rewritten to the
    canonical URL identity, the second to the canonical hostname identity,
    the third to the canonical user-agent identity, and the fourth and any
    later occurrence are left unrewritten. *)
Theorem cisco_positional_order (pre m1 m2 rest : list Field.t) (c1 c2 c3 : Field.t) :
  Forall (fun f => ident f <> ciscoHttpUrl) (pre ++ m1 ++ m2) ->
  ident c1 = ciscoHttpUrl -> ident c2 = ciscoHttpUrl -> ident c3 = ciscoHttpUrl ->
  (1 <= count_entity ciscoHttpUrl (map ident rest))%nat ->
  template_rewrite (pre ++ c1 :: m1 ++ c2 :: m2 ++ c3 :: rest) =
  (Some CISCO_PEN,
   pre ++ retarget c1 targetHttpUrl :: m1 ++ retarget c2 targetHttpHost :: m2 ++
   retarget c3 targetHttpUserAgent :: rest).
Proof.
  intros Hother H1 H2 H3 Hrest.
  rewrite !Forall_app in Hother. destruct Hother as (Hpre & Hm1 & Hm2).
  rewrite template_rewrite_spec.
  rewrite recognize_cisco.
  2:{ repeat ((rewrite map_app) || (progress cbn [map])).
      repeat ((rewrite count_entity_app) || (rewrite count_entity_cons)).
      rewrite H1, H2, H3, count_entity_self.
      rewrite !count_entity_none by assumption. lia. }
  f_equal. unfold rewrite_fields. rewrite Z.eqb_refl.
  rewrite cisco_rewrite_skip, cisco_rewrite_hit by assumption. f_equal. f_equal.
  rewrite cisco_rewrite_skip, cisco_rewrite_hit by assumption. f_equal. f_equal.
  rewrite cisco_rewrite_skip, cisco_rewrite_hit by assumption. f_equal. f_equal.
  apply cisco_rewrite_late. lia.
Qed.

Lemma cisco_four_occurrences_witness :
  template_rewrite ([iana_field 8 4] ++ cisco_field VAR_LEN :: [] ++ cisco_field VAR_LEN ::
                    [iana_field 12 4] ++ cisco_field VAR_LEN :: [] ++ cisco_field 16 :: []) =
  (Some CISCO_PEN,
   [iana_field 8 4] ++ retarget (cisco_field VAR_LEN) targetHttpUrl :: [] ++
   retarget (cisco_field VAR_LEN) targetHttpHost :: [iana_field 12 4] ++
   retarget (cisco_field VAR_LEN) targetHttpUserAgent :: [] ++ cisco_field 16 :: []).
Proof.
  apply cisco_four_occurrences; try reflexivity.
  repeat constructor; intros H; vm_compute in H; discriminate H.
Defined.

Lemma cisco_positional_order_witness :
  template_rewrite ([] ++ cisco_field VAR_LEN :: [iana_field 8 4] ++ cisco_field VAR_LEN :: [] ++
                    cisco_field VAR_LEN :: [cisco_field 16; cisco_field 16]) =
  (Some CISCO_PEN,
   [] ++ retarget (cisco_field VAR_LEN) targetHttpUrl :: [iana_field 8 4] ++
   retarget (cisco_field VAR_LEN) targetHttpHost :: [] ++
   retarget (cisco_field VAR_LEN) targetHttpUserAgent :: [cisco_field 16; cisco_field 16]).
Proof.
  apply cisco_positional_order; try reflexivity.
  - repeat constructor; intros H; vm_compute in H; discriminate H.
  - vm_compute. lia.
Defined.

(** C5 as stated fails: on Cisco's four fields the first occurrence
    becomes the canonical URL identity, not the hostname one. *)
Lemma cisco_first_occurrence_not_hostname :
  map ident (snd (template_rewrite cisco_template_fields)) =
    [targetHttpUrl; targetHttpHost; targetHttpUserAgent; ciscoHttpUnknown] /\
  targetHttpUrl <> targetHttpHost.
Proof. split; [reflexivity | discriminate]. Qed.

(** C6: ntop's NetFlow-v9-converted encoding (PEN 0xFFFFFFFF, ids 24891,
    24884, 24887) and its native IPFIX encoding (PEN 35632, ids 187, 180,
    183) are two distinct signatures, recognized separately with different
    verdicts, and both tables map hostname, URL and user agent to
    (44913,20), (44913,21), (44913,22); rewriting a template of either
    encoding yields the same identities, whatever the field lengths. *)
Theorem ntop_encodings_same_output (l1 l2 l3 : Z) :
  ntop_fields = [mk_entity 35632 187; mk_entity 35632 180; mk_entity 35632 183] /\
  ntopv9_fields = [mk_entity 0xFFFFFFFF 24891; mk_entity 0xFFFFFFFF 24884;
                   mk_entity 0xFFFFFFFF 24887] /\
  (forall e, In e ntop_fields -> ~ In e ntopv9_fields) /\
  map map_from ntop_field_mappings = ntop_fields /\
  map map_from ntopv9_field_mappings = ntopv9_fields /\
  map map_to ntop_field_mappings = [mk_entity 44913 20; mk_entity 44913 21; mk_entity 44913 22] /\
  map map_to ntopv9_field_mappings = map map_to ntop_field_mappings /\
  recognize ntop_fields = Some NTOP_PEN /\
  recognize ntopv9_fields = Some NFV9_CONVERSION_PEN /\
  NTOP_PEN <> NFV9_CONVERSION_PEN /\
  map ident (snd (template_rewrite
    [entity_field ntopHttpHost l1; entity_field ntopHttpUrl l2; entity_field ntopHttpUserAgent l3])) =
    [mk_entity 44913 20; mk_entity 44913 21; mk_entity 44913 22] /\
  map ident (snd (template_rewrite
    [entity_field ntopHttpHostv9 l1; entity_field ntopHttpUrlv9 l2;
     entity_field ntopHttpUserAgentv9 l3])) =
    [mk_entity 44913 20; mk_entity 44913 21; mk_entity 44913 22].
Proof.
  split; [reflexivity|]. split; [reflexivity|].
  split.
  { intros e He Hv. simpl in He, Hv.
    destruct He as [<-|[<-|[<-|[]]]]; destruct Hv as [Hv|[Hv|[Hv|[]]]]; discriminate Hv. }
  do 6 (split; [reflexivity|]).
  split; [discriminate|].
  split; vm_compute; reflexivity.
Qed.

(** C7: the configuration holds exactly five field-mapping tables, lists
    of (from, to) pairs; two of them (ntop and ntopv9) belong to ntop and
    are numerically distinct encodings (the NetFlow-v9 element ids are
    the IPFIX ones shifted by 24704, i.e. ntop's v9 base id 57472 without
    the enterprise bit), the other three belong to three other vendors
    (INVEA-TECH, Masaryk University, RS). *)
Theorem five_mapping_tables :
  length field_mapping_tables = 5%nat /\
  map fst field_mapping_tables = [Invea; Masaryk; Ntop; Ntop; Rs] /\
  (forall v, length (List.filter (fun t => vendor_eqb (fst t) v) field_mapping_tables) =
             match v with Ntop => 2%nat | Cisco => 0%nat | _ => 1%nat end) /\
  map (fun m => pen (map_from m)) ntop_field_mappings = [NTOP_PEN; NTOP_PEN; NTOP_PEN] /\
  map (fun m => pen (map_from m)) ntopv9_field_mappings =
    [NFV9_CONVERSION_PEN; NFV9_CONVERSION_PEN; NFV9_CONVERSION_PEN] /\
  map (fun m => element_id (map_from m)) ntopv9_field_mappings =
    map (fun m => element_id (map_from m) + 24704) ntop_field_mappings /\
  map (fun m => pen (map_from m)) invea_field_mappings = [INVEA_PEN; INVEA_PEN; INVEA_PEN] /\
  map (fun m => pen (map_from m)) masaryk_field_mappings = [MASARYK_PEN; MASARYK_PEN; MASARYK_PEN] /\
  map (fun m => pen (map_from m)) rs_field_mappings = [RS_PEN; RS_PEN; RS_PEN] /\
  List.NoDup [INVEA_PEN; MASARYK_PEN; NTOP_PEN; NFV9_CONVERSION_PEN; RS_PEN].
Proof.
  do 2 (split; [reflexivity|]).
  split; [intros []; reflexivity|].
  do 6 (split; [reflexivity|]).
  repeat constructor; simpl; unfold INVEA_PEN, MASARYK_PEN, NTOP_PEN, NFV9_CONVERSION_PEN, RS_PEN;
    intros H; repeat destruct H as [H|H]; discriminate || contradiction.
Qed.

(** C9: every entry of the rs table maps an identity to itself, its
    [from] identities are exactly the canonical targets (44913,20),
    (44913,21), (44913,22), and applying the rs table to any list of
    well-formed field specifiers changes nothing. *)
Theorem rs_mapping_identity (fs : list Field.t) :
  Forall wf_field fs ->
  (forall m, In m rs_field_mappings -> map_to m = map_from m) /\
  map map_from rs_field_mappings = [targetHttpHost; targetHttpUrl; targetHttpUserAgent] /\
  map map_from rs_field_mappings = [mk_entity 44913 20; mk_entity 44913 21; mk_entity 44913 22] /\
  map (apply_mapping rs_field_mappings) fs = fs.
Proof.
  intros Hwf.
  assert (Hself : forall m, In m rs_field_mappings -> map_to m = map_from m).
  { intros m Hm. simpl in Hm. destruct Hm as [<-|[<-|[<-|[]]]]; reflexivity. }
  split; [exact Hself|]. split; [reflexivity|]. split; [reflexivity|].
  induction fs as [|f fs IH]; [reflexivity|].
  inversion Hwf as [|? ? Hf Hfs]; subst. cbn [map]. rewrite IH by exact Hfs. f_equal.
  unfold apply_mapping.
  destruct (find _ rs_field_mappings) as [m|] eqn:Hfind; [|reflexivity].
  apply find_some in Hfind as [Hin Heq]. apply entity_eqb_eq in Heq.
  rewrite Hself, Heq by exact Hin.
  assert (Hp : pen (ident f) <> 0).
  { rewrite <- Heq. simpl in Hin. destruct Hin as [<-|[<-|[<-|[]]]]; discriminate. }
  destruct (ident_pen_enterprise f Hp) as [p Hsome].
  exact (retarget_own_ident f p Hf Hsome).
Qed.

Lemma rs_mapping_identity_witness :
  Forall wf_field [entity_field rsHttpHost 4; iana_field 8 4; entity_field inveaHttpUrl VAR_LEN] /\
  map (apply_mapping rs_field_mappings)
      [entity_field rsHttpHost 4; iana_field 8 4; entity_field inveaHttpUrl VAR_LEN] =
    [entity_field rsHttpHost 4; iana_field 8 4; entity_field inveaHttpUrl VAR_LEN].
Proof.
  assert (H : Forall wf_field
                [entity_field rsHttpHost 4; iana_field 8 4; entity_field inveaHttpUrl VAR_LEN]).
  { repeat constructor; vm_compute; repeat split; (reflexivity || discriminate). }
  split; [exact H|].
  apply (rs_mapping_identity _ H).
Defined.

(** C10: Cisco's signature is four equal identities (9, 12235); its field
    count is 4 while the common vendor field count is 3; no field-mapping
    table is Cisco's or has a Cisco [from]; every other vendor field array
    is the [from] column of a field-mapping table. *)
Theorem cisco_without_mapping_table :
  cisco_fields = repeat (mk_entity 9 12235) 4 /\
  cisco_field_count = 4 /\ Z.of_nat (length cisco_fields) = cisco_field_count /\
  vendor_fields_count = 3 /\
  (forall v tbl, In (v, tbl) field_mapping_tables ->
     v <> Cisco /\ Forall (fun m => pen (map_from m) <> CISCO_PEN) tbl) /\
  (forall p sig, In (p, sig) vendor_signatures ->
     p = CISCO_PEN \/ exists v tbl, In (v, tbl) field_mapping_tables /\ map map_from tbl = sig) /\
  (forall p sig, In (p, sig) vendor_signatures -> p = CISCO_PEN ->
     sig = cisco_fields /\ forall v tbl, In (v, tbl) field_mapping_tables -> map map_from tbl <> sig).
Proof.
  do 4 (split; [reflexivity|]).
  split.
  { intros v tbl H. simpl in H.
    repeat destruct H as [H|H]; try contradiction; injection H as <- <-;
      (split; [discriminate|]);
      repeat (apply List.Forall_cons; [simpl; discriminate|]); apply List.Forall_nil. }
  split.
  { intros p sig H. simpl in H.
    repeat destruct H as [H|H]; try contradiction; injection H as <- <-;
      [left; reflexivity
      | right; exists Invea, invea_field_mappings
      | right; exists Masaryk, masaryk_field_mappings
      | right; exists Ntop, ntop_field_mappings
      | right; exists Ntop, ntopv9_field_mappings
      | right; exists Rs, rs_field_mappings ];
      (split; [simpl; tauto | reflexivity]). }
  intros p sig H Hp. simpl in H.
  repeat destruct H as [H|H]; try contradiction; injection H as <- <-;
    try (vm_compute in Hp; discriminate Hp).
  split; [reflexivity|].
  intros v tbl Ht. simpl in Ht.
  repeat destruct Ht as [Ht|Ht]; try contradiction; injection Ht as <- <-; discriminate.
Qed.

(** C8: the verdict store is part of the plugin configuration, keyed by
    16-bit template ids, each entry holding its id, the matched PEN and the
    determined flag. [put] overwrites the entry of an existing id and
    keeps the others; processing keeps every key a 16-bit template id; and
    the store a message leaves in the configuration is the one the next
    message finds: whatever the next message holds, the entry of every id
    that none of its template records names is unchanged, and a message
    with no template sets leaves the whole store unchanged. *)
Theorem templ_stats_persistent (conf : httpfieldmerge_config) (m1 m2 : list byte)
    (tid : Z) (v : option Z) (old : Stats.templ_stats_elem_t) :
  store_ok (templ_stats conf) ->
  templ_stats conf !! tid = Some old ->
  templ_stats_get tid (templ_stats_put tid v (templ_stats conf)) =
    Some (Stats.mk tid (match v with Some p => p | None => 0 end) true) /\
  (forall k, k <> tid ->
     templ_stats_get k (templ_stats_put tid v (templ_stats conf)) = templ_stats_get k (templ_stats conf)) /\
  store_ok (templ_stats (fst (process_message conf m1))) /\
  (forall k, message_names m2 k = false ->
     templ_stats_get k (templ_stats (fst (process_message (fst (process_message conf m1)) m2))) =
     templ_stats_get k (templ_stats (fst (process_message conf m1)))) /\
  (Forall (fun s => is_template_set (fst s) = false) (fst (message_sets m2)) ->
   templ_stats (fst (process_message (fst (process_message conf m1)) m2)) =
     templ_stats (fst (process_message conf m1))).
Proof.
  intros Hok _.
  split; [unfold templ_stats_get, templ_stats_put; apply lookup_insert_eq|].
  split; [intros k Hk; unfold templ_stats_get, templ_stats_put; by apply lookup_insert_ne|].
  split.
  - unfold process_message. destruct (_ <? _)%nat; [exact Hok|].
    pose proof (process_sets_store_ok (length (skipn IPFIX_HEADER_LEN m1)) (templ_stats conf)
                  (skipn IPFIX_HEADER_LEN m1) Hok) as H.
    destruct (process_sets _ _ _) as [st' sets']. exact H.
  - set (c1 := fst (process_message conf m1)). split.
    + intros k Hk. unfold templ_stats_get.
      unfold process_message at 1. destruct (_ <? _)%nat; [reflexivity|].
      pose proof (process_sets_other (length (skipn IPFIX_HEADER_LEN m2)) (templ_stats c1)
                    (skipn IPFIX_HEADER_LEN m2) k Hk) as H.
      destruct (process_sets _ _ _) as [st' sets']. exact H.
    + intros Hdata.
      unfold process_message at 1. destruct (_ <? _)%nat; [reflexivity|].
      pose proof (process_sets_data_only (length (skipn IPFIX_HEADER_LEN m2)) (templ_stats c1)
                    (skipn IPFIX_HEADER_LEN m2) Hdata) as H.
      destruct (process_sets _ _ _) as [st' sets']. exact H.
Qed.

(** The entry of template 256, stored by a first message, survives a
    second message that defines template 300 and withdraws template 301. *)
Lemma templ_stats_persistent_witness :
  let conf := with_templ_stats empty_config (templ_stats_put 256 None empty) in
  let m1 := template_message 256 [(inveaHttpHost, 4); (inveaHttpUrl, VAR_LEN);
                                  (inveaHttpUserAgent, VAR_LEN)] in
  let m2 := template_message 300 [(masarykHttpHost, 4); (masarykHttpUrl, VAR_LEN);
                                  (masarykHttpUserAgent, VAR_LEN)] ++
            [Byte.x00; Byte.x02; Byte.x00; Byte.x08; Byte.x01; Byte.x2d; Byte.x00; Byte.x00] in
  store_ok (templ_stats conf) /\
  templ_stats conf !! 256 = Some (Stats.mk 256 0 true) /\
  message_names m2 256 = false /\
  templ_stats_get 256 (templ_stats (fst (process_message (fst (process_message conf m1)) m2))) =
  templ_stats_get 256 (templ_stats (fst (process_message conf m1))).
Proof.
  intros conf m1 m2.
  assert (Hok : store_ok (templ_stats conf)).
  { apply store_ok_put; [lia|]. intros k e H. by rewrite lookup_empty in H. }
  assert (Hold : templ_stats conf !! 256 = Some (Stats.mk 256 0 true)) by reflexivity.
  assert (Hn : message_names m2 256 = false) by (vm_compute; reflexivity).
  split; [exact Hok|]. split; [exact Hold|]. split; [exact Hn|].
  exact (proj1 (proj2 (proj2 (proj2 (templ_stats_persistent conf m1 m2 256 None _ Hok Hold))))
           256 Hn).
Defined.

(** C3 (amended): processing settles. For a message in which every
    template record matches at most one vendor signature other than the
    canonical one and has fewer than seven fields of the Cisco identity,
    running the engine again on its output, with any store, changes no
    byte. *)
Theorem process_message_idempotent (conf conf' : httpfieldmerge_config) (msg : list byte) :
  message_settles msg = true ->
  snd (process_message conf' (snd (process_message conf msg))) = snd (process_message conf msg).
Proof.
  intros Hs. unfold process_message at 2 3.
  destruct (length msg <? IPFIX_HEADER_LEN)%nat eqn:Hshort.
  { cbn [snd]. unfold process_message. by rewrite Hshort. }
  set (sets := skipn IPFIX_HEADER_LEN msg).
  destruct (process_sets (length sets) (templ_stats conf) sets) as [st1 sets'] eqn:Hp.
  cbn [snd].
  destruct (process_sets_frame _ _ _ _ _ Hp) as [Hl _].
  destruct (process_sets_settled _ _ (templ_stats conf') _ _ _ Hs Hp) as [st2 H2].
  apply Nat.ltb_ge in Hshort.
  assert (Hh : length (firstn IPFIX_HEADER_LEN msg) = IPFIX_HEADER_LEN)
    by (rewrite length_firstn; lia).
  unfold process_message.
  replace (length (firstn IPFIX_HEADER_LEN msg ++ sets') <? IPFIX_HEADER_LEN)%nat with false
    by (symmetry; apply Nat.ltb_ge; rewrite length_app; lia).
  rewrite firstn_app_exact, skipn_app_exact by lia.
  rewrite Hl. unfold sets in *. rewrite H2. reflexivity.
Qed.

Lemma process_message_idempotent_witness :
  message_settles (template_message 256 [(inveaHttpHost, 4); (inveaHttpUrl, VAR_LEN);
                                         (inveaHttpUserAgent, VAR_LEN)]) = true /\
  snd (process_message empty_config
         (snd (process_message empty_config
                 (template_message 256 [(inveaHttpHost, 4); (inveaHttpUrl, VAR_LEN);
                                        (inveaHttpUserAgent, VAR_LEN)])))) =
  snd (process_message empty_config
         (template_message 256 [(inveaHttpHost, 4); (inveaHttpUrl, VAR_LEN);
                                (inveaHttpUserAgent, VAR_LEN)])).
Proof.
  assert (Hs : message_settles (template_message 256 [(inveaHttpHost, 4); (inveaHttpUrl, VAR_LEN);
                                                      (inveaHttpUserAgent, VAR_LEN)]) = true)
    by (vm_compute; reflexivity).
  split; [exact Hs|].
  exact (process_message_idempotent empty_config empty_config _ Hs).
Defined.

(** C3, counterexample: the canonical identities are the [from] column of
    the rs table, and a template holding both INVEA's and Masaryk
    University's fields is rewritten again by a second run: the first run
    maps INVEA's fields, the second Masaryk University's. *)
Lemma second_run_rewrites_again :
  map map_from rs_field_mappings = targets /\
  snd (process_message empty_config
         (snd (process_message empty_config
                 (template_message 256
                    [(inveaHttpHost, 4); (inveaHttpUrl, VAR_LEN); (inveaHttpUserAgent, VAR_LEN);
                     (masarykHttpHost, 4); (masarykHttpUrl, VAR_LEN);
                     (masarykHttpUserAgent, VAR_LEN)])))) <>
  snd (process_message empty_config
         (template_message 256
            [(inveaHttpHost, 4); (inveaHttpUrl, VAR_LEN); (inveaHttpUserAgent, VAR_LEN);
             (masarykHttpHost, 4); (masarykHttpUrl, VAR_LEN); (masarykHttpUserAgent, VAR_LEN)])).
Proof.
  split; [reflexivity|].
  vm_compute. intros H. discriminate H.
Qed.

(* ================================================================== *)
(** * Further properties of the header's tables *)

(** No identity is the [from] of two entries, within one table or
    across the five tables: the tables together are a function from
    vendor identities to canonical ones. *)
Theorem mapping_froms_unique :
  List.NoDup (concat (map (fun t => map map_from (snd t)) field_mapping_tables)).
Proof.
  cbn [field_mapping_tables map snd concat app invea_field_mappings masaryk_field_mappings
       ntop_field_mappings ntopv9_field_mappings rs_field_mappings map_from].
  repeat (apply List.NoDup_cons; [not_in_closed|]). apply List.NoDup_nil.
Qed.

(** Each table pairs the identities of a non-Cisco vendor field array, in
    array order, with the canonical hostname, URL and user-agent
    identities in that order. *)
Theorem mapping_tables_aligned (v : vendor) (tbl : list field_mapping) :
  In (v, tbl) field_mapping_tables ->
  exists p sig, In (p, sig) vendor_signatures /\ p <> CISCO_PEN /\
    tbl = map (fun '(a, b) => mk_mapping a b) (combine sig targets).
Proof.
  intros H. simpl in H.
  destruct H as [H|[H|[H|[H|[H|[]]]]]]; injection H as <- <-.
  - exists INVEA_PEN, invea_fields. split; [simpl; tauto|]. split; [discriminate | reflexivity].
  - exists MASARYK_PEN, masaryk_fields. split; [simpl; tauto|]. split; [discriminate | reflexivity].
  - exists NTOP_PEN, ntop_fields. split; [simpl; tauto|]. split; [discriminate | reflexivity].
  - exists NFV9_CONVERSION_PEN, ntopv9_fields. split; [simpl; tauto|].
    split; [discriminate | reflexivity].
  - exists RS_PEN, rs_fields. split; [simpl; tauto|]. split; [discriminate | reflexivity].
Qed.

(** A canonical identity produced by one table is never moved again by
    any table: whenever it is the [from] of an entry, that entry maps it
    to itself. *)
Theorem mapping_tables_closed (v v' : vendor) (tbl tbl' : list field_mapping)
    (m m' : field_mapping) :
  In (v, tbl) field_mapping_tables -> In (v', tbl') field_mapping_tables ->
  In m tbl -> In m' tbl' -> map_from m' = map_to m -> map_to m' = map_to m.
Proof.
  intros Hv Hv' Hm Hm' Heq.
  assert (Ht : In (map_to m) targets).
  { simpl in Hv. destruct Hv as [H|[H|[H|[H|[H|[]]]]]]; injection H as <- <-;
      simpl in Hm; repeat destruct Hm as [<-|Hm]; try contradiction; simpl; tauto. }
  simpl in Ht, Hv'.
  destruct Hv' as [H|[H|[H|[H|[H|[]]]]]]; injection H as <- <-;
    simpl in Hm'; repeat destruct Hm' as [<-|Hm']; try contradiction;
    destruct Ht as [Ht|[Ht|[Ht|[]]]]; rewrite <- Ht in Heq |- *; cbn [map_from map_to] in Heq |- *;
    first [reflexivity | cbv in Heq; discriminate Heq].
Qed.

(** Vendor signatures of different PENs share no identity, and within the
    field array of each vendor other than Cisco the identities are
    pairwise distinct. *)
Theorem signatures_pairwise_disjoint :
  (forall p q sig sig' e, In (p, sig) vendor_signatures -> In (q, sig') vendor_signatures ->
     p <> q -> In e sig -> ~ In e sig') /\
  (forall p sig, In (p, sig) vendor_signatures -> p <> CISCO_PEN -> List.NoDup sig).
Proof.
  split.
  - intros p q sig sig' e H1 H2 Hpq He.
    destruct (Z.eq_dec p RS_PEN) as [->|Hp].
    + intros He'. assert (Hq : q <> RS_PEN) by congruence.
      exact (proj1 (signatures_disjoint RS_PEN q sig sig' e H1 H2 Hpq Hq He') He).
    + exact (proj1 (signatures_disjoint q p sig' sig e H2 H1 (not_eq_sym Hpq) Hp He)).
  - intros p sig H Hc. simpl in H.
    destruct H as [H|[H|[H|[H|[H|[H|[]]]]]]]; injection H as <- <-;
      try (exfalso; apply Hc; reflexivity);
      cbn [invea_fields masaryk_fields ntop_fields ntopv9_fields rs_fields];
      repeat (apply List.NoDup_cons; [not_in_closed|]); apply List.NoDup_nil.
Qed.

(** Every field count macro equals the number of entries of its vendor's
    field arrays and mapping tables, and every mapping table has
    [vendor_fields_count] entries. *)
Theorem field_counts_match :
  Z.of_nat (length cisco_fields) = cisco_field_count /\
  Z.of_nat (length invea_fields) = invea_field_count /\
  Z.of_nat (length invea_field_mappings) = invea_field_count /\
  Z.of_nat (length masaryk_fields) = masaryk_field_count /\
  Z.of_nat (length masaryk_field_mappings) = masaryk_field_count /\
  Z.of_nat (length ntop_fields) = ntop_field_count /\
  Z.of_nat (length ntop_field_mappings) = ntop_field_count /\
  Z.of_nat (length ntopv9_fields) = ntop_field_count /\
  Z.of_nat (length ntopv9_field_mappings) = ntop_field_count /\
  Z.of_nat (length rs_fields) = rs_field_count /\
  Z.of_nat (length rs_field_mappings) = rs_field_count /\
  (forall v tbl, In (v, tbl) field_mapping_tables -> Z.of_nat (length tbl) = vendor_fields_count).
Proof.
  do 11 (split; [reflexivity|]).
  intros v tbl H. simpl in H.
  destruct H as [H|[H|[H|[H|[H|[]]]]]]; injection H as <- <-; reflexivity.
Qed.

(** Every identity of the header fits [struct ipfix_entity] (a 32-bit PEN)
    with an element id below the enterprise bit, so written as an
    enterprise-specific field specifier of any 16-bit length it is read
    back as the same specifier, carrying the same identity. *)
Theorem header_identities_encodable (e : ipfix_entity) (len : Z) (rest : list byte) :
  In e header_identities -> 0 <= len < 65536 ->
  0 <= pen e < 4294967296 /\ 0 <= element_id e < 32768 /\
  parse_field (field_bytes e len ++ rest) = Some (entity_field e len, rest) /\
  ident (entity_field e len) = e.
Proof.
  intros He Hlen. unfold header_identities in He. simpl in He.
  repeat destruct He as [<-|He]; try contradiction;
  (split; [split; [apply Z.leb_le | apply Z.ltb_lt]; reflexivity|];
   split; [split; [apply Z.leb_le | apply Z.ltb_lt]; reflexivity|];
   split; [|reflexivity];
   apply parse_encode_field; unfold wf_field, entity_field;
   cbn [Field.element_id Field.field_length Field.enterprise_number];
   match goal with |- context [Z.lor ?a ?b] =>
     let x := eval vm_compute in (Z.lor a b) in change (Z.lor a b) with x end;
   match goal with |- context [pen ?a] =>
     let x := eval vm_compute in (pen a) in change (pen a) with x end;
   repeat split; (lia || reflexivity)).
Qed.

Lemma header_identities_encodable_witness :
  In masarykHttpUrl header_identities /\ 0 <= VAR_LEN < 65536 /\
  parse_field (field_bytes masarykHttpUrl VAR_LEN ++ [Byte.x01]) =
    Some (entity_field masarykHttpUrl VAR_LEN, [Byte.x01]).
Proof.
  assert (Hin : In masarykHttpUrl header_identities) by (simpl; tauto).
  assert (Hl : 0 <= VAR_LEN < 65536) by (unfold VAR_LEN; lia).
  split; [exact Hin|]. split; [exact Hl|].
  exact (proj1 (proj2 (proj2 (header_identities_encodable masarykHttpUrl VAR_LEN [Byte.x01] Hin Hl)))).
Defined.

Lemma mapping_tables_aligned_witness :
  In (Ntop, ntopv9_field_mappings) field_mapping_tables /\
  exists p sig, In (p, sig) vendor_signatures /\ p <> CISCO_PEN /\
    ntopv9_field_mappings = map (fun '(a, b) => mk_mapping a b) (combine sig targets).
Proof.
  assert (H : In (Ntop, ntopv9_field_mappings) field_mapping_tables) by (simpl; tauto).
  split; [exact H|]. exact (mapping_tables_aligned Ntop ntopv9_field_mappings H).
Defined.

Lemma mapping_tables_closed_witness :
  In (Invea, invea_field_mappings) field_mapping_tables /\
  In (Rs, rs_field_mappings) field_mapping_tables /\
  In (mk_mapping inveaHttpUrl targetHttpUrl) invea_field_mappings /\
  In (mk_mapping rsHttpUrl targetHttpUrl) rs_field_mappings /\
  map_from (mk_mapping rsHttpUrl targetHttpUrl) = map_to (mk_mapping inveaHttpUrl targetHttpUrl) /\
  map_to (mk_mapping rsHttpUrl targetHttpUrl) = map_to (mk_mapping inveaHttpUrl targetHttpUrl).
Proof.
  assert (H1 : In (Invea, invea_field_mappings) field_mapping_tables) by (simpl; tauto).
  assert (H2 : In (Rs, rs_field_mappings) field_mapping_tables) by (simpl; tauto).
  assert (H3 : In (mk_mapping inveaHttpUrl targetHttpUrl) invea_field_mappings) by (simpl; tauto).
  assert (H4 : In (mk_mapping rsHttpUrl targetHttpUrl) rs_field_mappings) by (simpl; tauto).
  assert (H5 : map_from (mk_mapping rsHttpUrl targetHttpUrl) =
               map_to (mk_mapping inveaHttpUrl targetHttpUrl)) by reflexivity.
  do 5 (split; [assumption|]).
  exact (mapping_tables_closed Invea Rs _ _ _ _ H1 H2 H3 H4 H5).
Defined.
